(** * react-auto-tracking: the event filtering and enrichment pipeline

    A shallow embedding of the fiber resolver ([src/fiber/resolver.ts]),
    the fiber extractor ([src/fiber/extractor.ts]), the event-category
    table and the filter engine ([src/filter/]), the listener registry
    and the pipeline ([src/core/registry.ts], [src/core/pipeline.ts]),
    followed by the properties established about them.

    Modelling conventions.
    - A DOM element is a record that carries its own [parentElement]
      chain; [el_uid] stands for object identity.
    - The own enumerable properties of an element ([Object.keys]) are an
      association list in key order.  The value stored under a property
      is what the declared result type [object | null] of
      [getFiberFromElement] admits: a fiber object or [null]; a missing
      property reads as [undefined], which [!= null] treats like [null].
    - The module-level [cachedKey] is threaded through a small state
      monad, [Resolver].
    - [Element.matches] is a platform function: a [Variable] of the
      section below, assumed total (selectors are well-formed).
    - Listener callbacks are opaque; invoking the wrapped callback of a
      registry entry is recorded in a call log, and a callback is assumed
      to return normally. *)

From Stdlib Require Import List String Ascii Bool Arith ZArith Lia.
Import ListNotations.
Open Scope string_scope.
Open Scope list_scope.
Open Scope nat_scope.

Set Implicit Arguments.
Set Warnings "-register-all".

(** ** JavaScript data *)

(** [key.startsWith(prefix)]. *)
Definition startsWith (key prefix : string) : bool := String.prefix prefix key.

(** Lookup in an insertion-ordered object. *)
Fixpoint assoc (A : Type) (k : string) (o : list (string * A)) : option A :=
  match o with
  | [] => None
  | (k', v) :: rest => if String.eqb k' k then Some v else assoc k rest
  end.

(** [set.has(x)] for a [Set] of strings. *)
Definition setHas (s : list string) (x : string) : bool :=
  existsb (String.eqb x) s.

(** ** Fiber nodes ([interface FiberNode]) *)

(** The [type] field, by what [typeof] and the name lookups can observe:
    a string (host element), a function or class with its [displayName]
    and intrinsic [name] ([None] when nullish), or anything else. *)
Inductive FiberType : Type :=
| TypeString (tag : string)
| TypeFunction (displayName : option string) (name : option string)
| TypeOther.

(** A value of [memoizedProps], by whether [typeof v === 'function']. *)
Inductive PropValue : Type :=
| VFunction
| VOther.

(** [memoizedProps = None] stands for [null] or [undefined];
    [freturn] is the [return] field. *)
Inductive FiberNode : Type :=
  mkFiber {
    fiber_uid : nat;
    fiber_type : FiberType;
    memoizedProps : option (list (string * PropValue));
    freturn : option FiberNode
  }.

(** ** DOM elements and event targets *)

Inductive Element : Type :=
  mkElement {
    el_uid : nat;
    el_isHTML : bool;                           (* instanceof HTMLElement *)
    tagName : string;
    el_id : string;
    className : string;
    el_href : string;                           (* .href of an anchor *)
    el_type : string;                           (* .type of an input *)
    attributes : list (string * string);
    ownProps : list (string * option FiberNode);
    parentElement : option Element
  }.

Definition getAttribute (el : Element) (name : string) : option string :=
  assoc name (attributes el).

Definition hasAttribute (el : Element) (name : string) : bool :=
  match getAttribute el name with Some _ => true | None => false end.

(** [Object.keys(element)]. *)
Definition ownKeys (el : Element) : list string := map fst (ownProps el).

(** [element[key]]; [None] is [undefined]. *)
Definition getProp (el : Element) (key : string) : option (option FiberNode) :=
  assoc key (ownProps el).

(** The [k]-th [parentElement] of an element ([k = 0]: the element). *)
Fixpoint ancestor (k : nat) (el : Element) : option Element :=
  match k with
  | 0 => Some el
  | S k' => match parentElement el with
            | Some p => ancestor k' p
            | None => None
            end
  end.

(** What [event.target] can be: nothing, a node that is not an [Element]
    (a text node, the document, the window), or an element. *)
Inductive EventTarget : Type :=
| TargetNull
| TargetNode
| TargetElement (el : Element).

Record DomEvent : Type :=
  mkEvent {
    ev_uid : nat;
    ev_type : string;
    ev_target : EventTarget
  }.

(** ** The resolver's module state *)

(** A computation over the module-level [cachedKey]. *)
Definition Resolver (A : Type) : Type := option string -> A * option string.

Definition ret (A : Type) (a : A) : Resolver A := fun c => (a, c).

Definition bind (A B : Type) (m : Resolver A) (f : A -> Resolver B)
  : Resolver B :=
  fun c => let (a, c') := m c in f a c'.

Notation "x <- m ;; k" := (bind m (fun x => k))
  (at level 61, m at next level, right associativity).

Definition result (A : Type) (r : A * option string) : A := fst r.
Definition cacheAfter (A : Type) (r : A * option string) : option string := snd r.

(** ** src/fiber/resolver.ts *)

Definition FIBER_PREFIXES : list string :=
  ["__reactFiber$"; "__reactInternalInstance$"].

Definition MAX_PARENT_DEPTH : nat := 10.

(** The two nested [for] loops of [getFiberFromElement]: the first own
    key, in key order, that starts with one of the prefixes. *)
Fixpoint scanKeys (keys : list string) : option string :=
  match keys with
  | [] => None
  | key :: rest =>
      if existsb (startsWith key) FIBER_PREFIXES then Some key
      else scanKeys rest
  end.

Definition getFiberFromElement (element : Element) : Resolver (option FiberNode) :=
  fun cachedKey =>
    match cachedKey with
    | Some key =>
        match getProp element key with
        | Some (Some fiber) => (Some fiber, cachedKey)
        | _ => (None, cachedKey)
        end
    | None =>
        match scanKeys (ownKeys element) with
        | Some key =>
            (match getProp element key with
             | Some v => v
             | None => None
             end, Some key)
        | None => (None, None)
        end
    end.

(** The [while] loop of [resolveFiber].  [fuel] only makes the recursion
    structural: the guard [depth <= MAX_PARENT_DEPTH] is the source's, and
    [resolveFiber_fuel] shows that the fuel given below never runs out. *)
Fixpoint resolveFiber_loop (fuel : nat) (current : option Element) (depth : nat)
  : Resolver (option FiberNode) :=
  match fuel with
  | 0 => ret None
  | S fuel' =>
      match current with
      | Some cur =>
          if depth <=? MAX_PARENT_DEPTH then
            fiber <- getFiberFromElement cur ;;
            match fiber with
            | Some f => ret (Some f)
            | None => resolveFiber_loop fuel' (parentElement cur) (S depth)
            end
          else ret None
      | None => ret None
      end
  end.

Definition resolveFiber (element : Element) : Resolver (option FiberNode) :=
  resolveFiber_loop (S MAX_PARENT_DEPTH) (Some element) 0.

Definition resetFiberKeyCache : Resolver unit := fun _ => (tt, None).

(** ** src/fiber/extractor.ts *)

Definition MAX_STACK_DEPTH : nat := 50.
Definition HANDLER_PREFIX : string := "on".

Record FiberInfo : Type :=
  mkFiberInfo {
    componentName : option string;
    componentStack : list string;
    handlers : list string
  }.

Definition isFunction (v : PropValue) : bool :=
  match v with VFunction => true | VOther => false end.

Definition extractHandlers (fiber : FiberNode) : list string :=
  match memoizedProps fiber with
  | None => []
  | Some props =>
      map fst
        (filter (fun kv => startsWith (fst kv) HANDLER_PREFIX && isFunction (snd kv))
                props)
  end.

(** [a ?? b]. *)
Definition nullish (A : Type) (a b : option A) : option A :=
  match a with Some _ => a | None => b end.

Definition getComponentName (fiber : FiberNode) : option string :=
  match fiber_type fiber with
  | TypeString _ => None
  | TypeFunction displayName name => nullish displayName (nullish name None)
  | TypeOther => None
  end.

(** The [while] loop of [extractComponentInfo], carrying the two locals
    [componentName] and [stack]; the guard [depth < MAX_STACK_DEPTH] is
    the source's and [fuel] makes the recursion structural. *)
Fixpoint extractComponentInfo_loop (fuel : nat) (current : option FiberNode)
    (depth : nat) (componentName : option string) (stack : list string)
  : option string * list string :=
  match fuel with
  | 0 => (componentName, stack)
  | S fuel' =>
      match current with
      | Some cur =>
          if depth <? MAX_STACK_DEPTH then
            match getComponentName cur with
            | Some name =>
                extractComponentInfo_loop fuel' (freturn cur) (S depth)
                  (match componentName with
                   | None => Some name
                   | Some _ => componentName
                   end)
                  (stack ++ [name])
            | None =>
                extractComponentInfo_loop fuel' (freturn cur) (S depth)
                  componentName stack
            end
          else (componentName, stack)
      | None => (componentName, stack)
      end
  end.

Definition extractComponentInfo (fiber : FiberNode) : option string * list string :=
  extractComponentInfo_loop MAX_STACK_DEPTH (freturn fiber) 0 None [].

Definition extractFiberInfo (rawFiber : option FiberNode) : option FiberInfo :=
  match rawFiber with
  | None => None
  | Some fiber =>
      let handlers := extractHandlers fiber in
      let (componentName, componentStack) := extractComponentInfo fiber in
      Some (mkFiberInfo componentName componentStack handlers)
  end.

(** ** src/filter/event-categories.ts *)

Inductive EventCategory : Type := Pointer | Form | Ambient.

Definition EVENT_HANDLER_MAP : list (string * list string) :=
  [ ("click", ["onClick"; "onMouseDown"; "onMouseUp"; "onPointerDown"; "onPointerUp"]);
    ("touchstart", ["onTouchStart"]);
    ("touchend", ["onTouchEnd"]);
    ("input", ["onChange"; "onInput"]);
    ("change", ["onChange"]);
    ("focus", ["onFocus"]);
    ("blur", ["onBlur"]);
    ("submit", ["onSubmit"]);
    ("scroll", ["onScroll"]);
    ("keydown", ["onKeyDown"]);
    ("keyup", ["onKeyUp"]);
    ("copy", ["onCopy"]);
    ("paste", ["onPaste"]) ].

Definition CATEGORY_MAP : list (string * EventCategory) :=
  [ ("click", Pointer); ("touchstart", Pointer); ("touchend", Pointer);
    ("input", Form); ("change", Form); ("focus", Form); ("blur", Form);
    ("submit", Form);
    ("scroll", Ambient); ("keydown", Ambient); ("keyup", Ambient);
    ("copy", Ambient); ("paste", Ambient) ].

Definition getEventCategory (eventType : string) : EventCategory :=
  match assoc eventType CATEGORY_MAP with
  | Some c => c
  | None => Ambient
  end.

Definition getHandlersForEvent (eventType : string) : list string :=
  match assoc eventType EVENT_HANDLER_MAP with
  | Some hs => hs
  | None => []
  end.

(** ** src/extract/element-extractor.ts *)

(** The fields [text] and [dataset] of the source record are left out:
    they rest on platform string trimming and on [DOMStringMap], and no
    statement below reads them. *)
Record ElementInfo : Type :=
  mkElementInfo {
    info_tagName : string;
    info_id : string;
    info_className : string;
    info_href : option string;
    info_role : option string;
    info_type : option string
  }.

Definition isAnchorElement (el : Element) : bool := String.eqb (tagName el) "A".
Definition isInputElement (el : Element) : bool := String.eqb (tagName el) "INPUT".

Definition extractElementInfo (element : Element) : ElementInfo :=
  mkElementInfo
    (tagName element)
    (el_id element)
    (className element)
    (if isAnchorElement element then Some (el_href element) else None)
    (getAttribute element "role")
    (if isInputElement element then Some (el_type element) else None).

(** ** src/types.ts *)

Record ResolvedConfig : Type :=
  mkConfig {
    enabled : bool;
    ignoreSelectors : list string;
    includeSelectors : option (list string);
    debug : bool
  }.

Record TrackEvent : Type :=
  mkTrackEvent {
    te_type : string;
    te_timestamp : nat;
    te_element : ElementInfo;
    te_fiber : option FiberInfo;
    te_raw : DomEvent;
    te_rawFiberNode : option FiberNode
  }.

Record ListenerOptions : Type :=
  mkOptions {
    opt_debounce : option nat;
    opt_throttle : option nat;
    opt_once : bool;                      (* options.once === true *)
    opt_selector : option string
  }.

(** A registry entry; [entry_uid] stands for the identity of the entry
    object and of its wrapped callback. *)
Record RegistryEntry : Type :=
  mkEntry {
    entry_uid : nat;
    entry_eventType : string;
    entry_options : ListenerOptions
  }.

(** ** src/filter/filter-engine.ts, src/core/registry.ts, src/core/pipeline.ts *)

Definition INTERACTIVE_TAGS : list string :=
  ["BUTTON"; "A"; "INPUT"; "SELECT"; "TEXTAREA"; "SUMMARY"; "DETAILS"].

Definition INTERACTIVE_ROLES : list string :=
  ["button"; "link"; "menuitem"; "tab"; "checkbox"; "radio";
   "combobox"; "listbox"; "option"; "switch"; "slider"; "spinbutton";
   "menuitemcheckbox"; "menuitemradio"; "treeitem"; "gridcell";
   "textbox"; "searchbox"].

Definition MAX_ANCESTOR_DEPTH : nat := 10.

Definition isDisabled (el : Element) : bool :=
  hasAttribute el "disabled"
  || match getAttribute el "aria-disabled" with
     | Some v => String.eqb v "true"
     | None => false
     end.

(** [typeof props[handler] === 'function']. *)
Definition isCallableEntry (props : list (string * PropValue)) (handler : string)
  : bool :=
  match assoc handler props with
  | Some VFunction => true
  | _ => false
  end.

Definition isInteractiveElement (el : Element) (eventType : string)
  : Resolver bool :=
  if setHas INTERACTIVE_TAGS (tagName el) then ret true
  else
    if match getAttribute el "role" with
       | Some role => setHas INTERACTIVE_ROLES role
       | None => false
       end
    then ret true
    else
      let handlers := getHandlersForEvent eventType in
      if 0 <? List.length handlers then
        fiber <- resolveFiber el ;;
        match fiber with
        | Some f =>
            match memoizedProps f with
            | Some props => ret (existsb (isCallableEntry props) handlers)
            | None => ret false
            end
        | None => ret false
        end
      else ret false.

Section FilterEngine.

(** [element.matches(selector)]. *)
Variable matches : Element -> string -> bool.

Definition isIgnored (element : Element) (ignoreSelectors : list string) : bool :=
  existsb (matches element) ignoreSelectors.

(** The [while] loop of [findPointerTarget]; the guard
    [depth <= MAX_ANCESTOR_DEPTH] is the source's, [fuel] makes the
    recursion structural. *)
Fixpoint findPointerTarget_loop (fuel : nat) (current : option Element)
    (depth : nat) (ignoreSelectors : list string) (eventType : string)
  : Resolver (option Element) :=
  match fuel with
  | 0 => ret None
  | S fuel' =>
      match current with
      | Some cur =>
          if depth <=? MAX_ANCESTOR_DEPTH then
            if isIgnored cur ignoreSelectors then ret None
            else if isDisabled cur then ret None
            else
              interactive <- isInteractiveElement cur eventType ;;
              if interactive then ret (Some cur)
              else findPointerTarget_loop fuel' (parentElement cur) (S depth)
                     ignoreSelectors eventType
          else ret None
      | None => ret None
      end
  end.

Definition findPointerTarget (target : Element) (ignoreSelectors : list string)
    (eventType : string) : Resolver (option Element) :=
  findPointerTarget_loop (S MAX_ANCESTOR_DEPTH) (Some target) 0
    ignoreSelectors eventType.

Definition filterFormTarget (target : Element) (ignoreSelectors : list string)
  : option Element :=
  if isIgnored target ignoreSelectors then None
  else if isDisabled target then None
  else Some target.

Definition filterAmbientTarget (target : Element) (ignoreSelectors : list string)
  : option Element :=
  if isIgnored target ignoreSelectors then None
  else Some target.

(** [params] is the record [{ target, ignoreSelectors, eventType }]. *)
Definition getTrackableElement (target : Element) (ignoreSelectors : list string)
    (eventType : string) : Resolver (option Element) :=
  if negb (el_isHTML target) then ret None
  else
    match getEventCategory eventType with
    | Pointer => findPointerTarget target ignoreSelectors eventType
    | Form => ret (filterFormTarget target ignoreSelectors)
    | Ambient => ret (filterAmbientTarget target ignoreSelectors)
    end.

(** *** The registry *)

(** [entry.unsubscribe()]: [entries.filter((e) => e !== entry)]; the
    cancellation of a pending debounce or throttle timer is not modelled. *)
Definition unsubscribe (entry : RegistryEntry) (entries : list RegistryEntry)
  : list RegistryEntry :=
  filter (fun e => negb (entry_uid e =? entry_uid entry)) entries.

(** The selector check of [invoke], on [event.raw.target]. *)
Definition selectorAdmits (entry : RegistryEntry) (event : TrackEvent) : bool :=
  match opt_selector (entry_options entry) with
  | None => true
  | Some selector =>
      match ev_target (te_raw event) with
      | TargetElement target => matches target selector
      | _ => false
      end
  end.

(** The [for ... of entries] loop of [invoke].  [iter] is what is left
    of the array the loop started on; [entries] is the registry
    variable, reassigned by [unsubscribe]; [calls] logs each call of a
    wrapped callback. *)
Fixpoint invoke_loop (iter : list RegistryEntry) (event : TrackEvent)
    (entries : list RegistryEntry) (calls : list (nat * TrackEvent))
  : list RegistryEntry * list (nat * TrackEvent) :=
  match iter with
  | [] => (entries, calls)
  | entry :: rest =>
      if negb (String.eqb (entry_eventType entry) (te_type event)) then
        invoke_loop rest event entries calls
      else if negb (selectorAdmits entry event) then
        invoke_loop rest event entries calls
      else
        let calls' := calls ++ [(entry_uid entry, event)] in
        if opt_once (entry_options entry) then
          invoke_loop rest event (unsubscribe entry entries) calls'
        else
          invoke_loop rest event entries calls'
  end.

Definition invoke (event : TrackEvent) (entries : list RegistryEntry)
    (calls : list (nat * TrackEvent))
  : list RegistryEntry * list (nat * TrackEvent) :=
  invoke_loop entries event entries calls.

(** *** The pipeline *)

(** What a pipeline reads and writes: the resolver's [cachedKey], the
    registry's [entries], the [lastEvent] slot, and the log of callback
    calls. *)
Record World : Type :=
  mkWorld {
    cachedKey : option string;
    entries : list RegistryEntry;
    lastEvent : option TrackEvent;
    calls : list (nat * TrackEvent)
  }.

(** [handleEvent(domEvent)] of the pipeline created for [config];
    [now] is the value [Date.now()] returns during the call. *)
Definition handleEvent (config : ResolvedConfig) (now : nat)
    (domEvent : DomEvent) (w : World) : World :=
  if negb (enabled config) then w
  else
    match ev_target domEvent with
    | TargetElement target =>
        let (trackableElement, c1) :=
          getTrackableElement target (ignoreSelectors config)
            (ev_type domEvent) (cachedKey w) in
        match trackableElement with
        | None => mkWorld c1 (entries w) (lastEvent w) (calls w)
        | Some el =>
            let elementInfo := extractElementInfo el in
            let (rawFiberNode, c2) := resolveFiber el c1 in
            let fiberInfo := extractFiberInfo rawFiberNode in
            let trackEvent :=
              mkTrackEvent (ev_type domEvent) now elementInfo fiberInfo
                domEvent rawFiberNode in
            let (entries', calls') := invoke trackEvent (entries w) (calls w) in
            mkWorld c2 entries' (Some trackEvent) calls'
        end
    | _ => w
    end.

Definition getLastEvent (w : World) : option TrackEvent := lastEvent w.

End FilterEngine.

(** ** Specification-side vocabulary *)

(** The first [n] nodes reached by following [return] from [current]. *)
Fixpoint returnChain (n : nat) (current : option FiberNode) : list FiberNode :=
  match n, current with
  | S n', Some cur => cur :: returnChain n' (freturn cur)
  | _, _ => []
  end.

(** The component names along a list of fiber nodes, unnamed nodes
    contributing nothing. *)
Fixpoint componentNames (nodes : list FiberNode) : list string :=
  match nodes with
  | [] => []
  | node :: rest =>
      match getComponentName node with
      | Some name => name :: componentNames rest
      | None => componentNames rest
      end
  end.

(** An element "carries no fiber" when none of its own property names
    starts with a known prefix. *)
Definition carriesNoFiberKey (el : Element) : Prop :=
  forall key prefix,
    In key (ownKeys el) -> In prefix FIBER_PREFIXES -> startsWith key prefix = false.

(** An element that [isInteractiveElement] rejects, whatever the cache. *)
Definition nonInteractive (el : Element) (eventType : string) : Prop :=
  forall c, result (isInteractiveElement el eventType c) = false.

(** An element that [isInteractiveElement] accepts, whatever the cache. *)
Definition interactive (el : Element) (eventType : string) : Prop :=
  forall c, result (isInteractiveElement el eventType c) = true.

(** An element the Pointer walk may pass: neither ignored, nor disabled,
    nor interactive. *)
Definition passable (matches : Element -> string -> bool) (x : Element)
    (ign : list string) (ev : string) : Prop :=
  isIgnored matches x ign = false /\ isDisabled x = false /\ nonInteractive x ev.

(** The entries of a registry whose wrapped callback [invoke] calls for
    an event. *)
Definition fires (matches : Element -> string -> bool) (event : TrackEvent)
    (entry : RegistryEntry) : bool :=
  String.eqb (entry_eventType entry) (te_type event)
  && selectorAdmits matches entry event.

(** ** Data of the worked examples *)

Module Demo.

(** A stand-in for the platform's selector matching, enough for the
    selectors of the examples: compound selectors that are a type
    selector or a class selector, joined by descendant combinators. *)
Definition upperChar (c : ascii) : ascii :=
  let n := nat_of_ascii c in
  if (97 <=? n) && (n <=? 122) then ascii_of_nat (n - 32) else c.

Fixpoint upper (s : string) : string :=
  match s with
  | EmptyString => EmptyString
  | String c rest => String (upperChar c) (upper rest)
  end.

Fixpoint splitOnSpace (s acc : string) : list string :=
  match s with
  | EmptyString => [acc]
  | String c rest =>
      if Ascii.eqb c " "%char then acc :: splitOnSpace rest EmptyString
      else splitOnSpace rest (acc ++ String c EmptyString)
  end.

Definition matchesCompound (el : Element) (part : string) : bool :=
  match part with
  | String "."%char cls => setHas (splitOnSpace (className el) EmptyString) cls
  | _ => String.eqb (upper part) (tagName el)
  end.

(** Does some element of the chain [el], parent, grandparent, ... match
    the compounds [parts], innermost first, in order? *)
Fixpoint matchesAncestors (parts : list string) (el : Element) {struct el}
  : bool :=
  match parts with
  | [] => true
  | part :: outer =>
      let above :=
        match el with
        | mkElement _ _ _ _ _ _ _ _ _ (Some p) =>
            (matchesCompound p part && matchesAncestors outer p)
            || matchesAncestors parts p
        | _ => false
        end in
      above
  end.

Definition matches (el : Element) (selector : string) : bool :=
  match rev (splitOnSpace selector EmptyString) with
  | [] => false
  | subject :: outer =>
      matchesCompound el subject
      && match outer with
         | [] => true
         | _ => matchesAncestors outer el
         end
  end.

Definition html (uid : nat) (tag : string) (cls : string)
    (attrs : list (string * string))
    (props : list (string * option FiberNode)) (parent : option Element)
  : Element :=
  mkElement uid true tag "" cls "" "" attrs props parent.

Definition body : Element := html 1 "BODY" "" [] [] None.
Definition nav : Element := html 2 "NAV" "" [] [] (Some body).
Definition navLink : Element := html 3 "A" "" [] [] (Some nav).
Definition outsideButton : Element := html 4 "BUTTON" "" [] [] (Some body).

Definition click (target : Element) : DomEvent :=
  mkEvent 100 "click" (TargetElement target).

Definition freshWorld (entries : list RegistryEntry) : World :=
  mkWorld None entries None [].

Definition clickListener : RegistryEntry :=
  mkEntry 7 "click" (mkOptions None None false None).

(** A world whose last-event slot already holds a record. *)
Definition priorRecord : TrackEvent :=
  mkTrackEvent "scroll" 1 (extractElementInfo body) None
    (mkEvent 99 "scroll" (TargetElement body)) None.
Definition usedWorld : World := mkWorld None [] (Some priorRecord) [].

(** A [div] whose fiber declares [onClick], with a bare [span] and a
    bare [button] inside it. *)
Definition clickFiber : FiberNode :=
  mkFiber 50 (TypeString "div") (Some [("onClick", VFunction)]) None.
Definition fiberDiv : Element :=
  html 10 "DIV" "" [] [("__reactFiber$abc", Some clickFiber)] (Some body).
Definition bareSpan : Element := html 11 "SPAN" "" [] [] (Some fiberDiv).
Definition bareButton : Element := html 12 "BUTTON" "" [] [] (Some fiberDiv).

(** Two elements whose fiber keys share a prefix and differ in suffix. *)
Definition spanFiber : FiberNode := mkFiber 51 (TypeString "span") (Some []) None.
Definition firstSeen : Element :=
  html 20 "DIV" "" [] [("__reactFiber$abc", Some clickFiber)] None.
Definition otherSuffix : Element :=
  html 21 "SPAN" "" [] [("__reactFiber$xyz", Some spanFiber)] None.

(** [n] nested bare [div]s, the innermost being the result, under [top]. *)
Fixpoint nest (n : nat) (top : Element) : Element :=
  match n with
  | 0 => top
  | S n' => html (200 + n) "DIV" "" [] [] (Some (nest n' top))
  end.

Definition ignoredDisabledButton : Element :=
  html 30 "BUTTON" "no-track" [("disabled", ""); ("role", "button")] []
    (Some body).
Definition disabledInput : Element :=
  html 31 "INPUT" "" [("disabled", "")] [] (Some body).
Definition ariaDisabledDiv : Element :=
  html 32 "DIV" "" [("aria-disabled", "true")] [] (Some body).

(** A link that contains an ignored section, itself containing a bare
    [span] and a [button]. *)
Definition outerLink : Element := html 35 "A" "" [] [] (Some body).
Definition ignoredSection : Element :=
  html 33 "SECTION" "no-track" [] [] (Some outerLink).
Definition spanInIgnored : Element :=
  html 34 "SPAN" "" [] [] (Some ignoredSection).
Definition buttonInIgnored : Element :=
  html 36 "BUTTON" "" [] [] (Some ignoredSection).

Definition svgCircle : Element :=
  mkElement 40 false "circle" "" "" "" "" [] [] (Some body).

(** The fiber chain App -> Form -> SubmitButton -> button (host). *)
Definition appFiber : FiberNode :=
  mkFiber 60 (TypeFunction None (Some "App")) (Some []) None.
Definition formFiber : FiberNode :=
  mkFiber 61 (TypeFunction None (Some "Form")) (Some []) (Some appFiber).
Definition buttonFiber : FiberNode :=
  mkFiber 62 (TypeFunction None (Some "SubmitButton")) (Some []) (Some formFiber).
Definition hostFiber : FiberNode :=
  mkFiber 63 (TypeString "button") (Some []) (Some buttonFiber).

End Demo.

(** * The remaining operations *)

(** ** src/extract/element-extractor.ts, the [text] field *)

Definition MAX_TEXT_LENGTH : nat := 100.

Section ElementText.

(** A string as its sequence of UTF-16 code units, which is what
    [length] and [slice] count. *)
Variable CodeUnit : Type.

(** [String.prototype.trim], a platform function. *)
Variable trim : list CodeUnit -> list CodeUnit.

(** The value of the [text] field, from [element.textContent]
    ([None] is [null]). *)
Definition extractText (textContent : option (list CodeUnit)) : list CodeUnit :=
  let text := trim (match textContent with Some t => t | None => [] end) in
  if MAX_TEXT_LENGTH <? List.length text then firstn MAX_TEXT_LENGTH text
  else text.

End ElementText.

(** ** src/core/registry.ts, the remaining operations *)

(** [add(eventType, callback, options)]; [uid] is the identity of the
    entry object that [createEntry] allocates. *)
Definition add (uid : nat) (eventType : string) (options : ListenerOptions)
    (entries : list RegistryEntry) : list RegistryEntry :=
  entries ++ [mkEntry uid eventType options].

(** [new Set(xs)]: the distinct members in order of first insertion. *)
Fixpoint newSet (xs seen : list string) : list string :=
  match xs with
  | [] => seen
  | x :: rest => newSet rest (if setHas seen x then seen else seen ++ [x])
  end.

Definition getEventTypes (entries : list RegistryEntry) : list string :=
  newSet (map entry_eventType entries) [].

Definition clear (entries : list RegistryEntry) : list RegistryEntry := [].

(** Which wrapper [wrapCallback] puts around a callback. *)
Inductive Wrapped : Type :=
| WrapDebounce (ms : nat)
| WrapThrottle (ms : nat)
| WrapNone.

Definition wrapCallback (options : ListenerOptions) : Wrapped :=
  match opt_debounce options with
  | Some ms => WrapDebounce ms
  | None =>
      match opt_throttle options with
      | Some ms => WrapThrottle ms
      | None => WrapNone
      end
  end.

(** ** src/core/tracker.ts *)

Record TrackerConfig : Type :=
  mkTrackerConfig {
    cfg_enabled : option bool;
    cfg_ignoreSelectors : option (list string);
    cfg_includeSelectors : option (list string);
    cfg_debug : option bool
  }.

(** [config] is [None] when [createTracker] is called without one. *)
Definition resolveConfig (config : option TrackerConfig) : ResolvedConfig :=
  mkConfig
    (match config with
     | Some c => match cfg_enabled c with Some b => b | None => true end
     | None => true
     end)
    (match config with
     | Some c => match cfg_ignoreSelectors c with Some l => l | None => [] end
     | None => []
     end)
    (match config with
     | Some c => cfg_includeSelectors c
     | None => None
     end)
    (match config with
     | Some c => match cfg_debug c with Some b => b | None => false end
     | None => false
     end).

(** The state of one tracker: its resolved configuration, the
    [destroyed] flag, the keys of the [domListeners] map in insertion
    order (the document has a capture listener for exactly these event
    types), the state of its pipeline, and what [console.debug] was
    given. *)
Record Tracker : Type :=
  mkTracker {
    resolved : ResolvedConfig;
    destroyed : bool;
    domListeners : list string;
    pipeline : World;
    debugLog : list TrackEvent
  }.

(** [createTracker(config)], under the current value of the resolver's
    [cachedKey]. *)
Definition createTracker (cached : option string) (config : option TrackerConfig)
  : Tracker :=
  mkTracker (resolveConfig config) false [] (mkWorld cached [] None []) [].

Definition ensureDomListener (eventType : string) (listeners : list string)
  : list string :=
  if setHas listeners eventType then listeners else listeners ++ [eventType].

Definition removeDomListener (eventType : string)
    (entries : list RegistryEntry) (listeners : list string) : list string :=
  if negb (setHas listeners eventType) then listeners
  else if negb (setHas (getEventTypes entries) eventType) then
    filter (fun t => negb (String.eqb t eventType)) listeners
  else listeners.

Definition withEntries (w : World) (es : list RegistryEntry) : World :=
  mkWorld (cachedKey w) es (lastEvent w) (calls w).

(** [tracker.on(eventType, callback, options)]; [uid] identifies the
    registry entry created for the callback. *)
Definition on (uid : nat) (eventType : string) (options : ListenerOptions)
    (tr : Tracker) : Tracker :=
  if destroyed tr then tr
  else
    mkTracker (resolved tr) false
      (ensureDomListener eventType (domListeners tr))
      (withEntries (pipeline tr)
         (add uid eventType options (entries (pipeline tr))))
      (debugLog tr).

(** The function that [on] returned for entry [uid] and [eventType]:
    [unsub()] and then [removeDomListener(eventType)]. *)
Definition off (uid : nat) (eventType : string) (tr : Tracker) : Tracker :=
  let es := unsubscribe (mkEntry uid eventType (mkOptions None None false None))
              (entries (pipeline tr)) in
  mkTracker (resolved tr) (destroyed tr)
    (removeDomListener eventType es (domListeners tr))
    (withEntries (pipeline tr) es)
    (debugLog tr).

Definition destroy (tr : Tracker) : Tracker :=
  if destroyed tr then tr
  else
    mkTracker (resolved tr) true []
      (withEntries (pipeline tr) (clear (entries (pipeline tr))))
      (debugLog tr).

Section TrackerDispatch.

Variable matches : Element -> string -> bool.

(** The capture listener that [ensureDomListener] attaches. *)
Definition domHandler (now : nat) (event : DomEvent) (tr : Tracker) : Tracker :=
  let w := handleEvent matches (resolved tr) now event (pipeline tr) in
  mkTracker (resolved tr) (destroyed tr) (domListeners tr) w
    (if debug (resolved tr) then
       match getLastEvent w with
       | Some last =>
           if ev_uid (te_raw last) =? ev_uid event then debugLog tr ++ [last]
           else debugLog tr
       | None => debugLog tr
       end
     else debugLog tr).

(** The document delivering [event]: the listener runs when one is
    attached for the event's type. *)
Definition deliver (now : nat) (event : DomEvent) (tr : Tracker) : Tracker :=
  if setHas (domListeners tr) (ev_type event) then domHandler now event tr
  else tr.

(** What can happen to a tracker. *)
Inductive TrackerOp : Type :=
| OpOn (uid : nat) (eventType : string) (options : ListenerOptions)
| OpOff (uid : nat) (eventType : string)
| OpDeliver (now : nat) (event : DomEvent)
| OpDestroy.

Definition stepTracker (tr : Tracker) (op : TrackerOp) : Tracker :=
  match op with
  | OpOn uid eventType options => on uid eventType options tr
  | OpOff uid eventType => off uid eventType tr
  | OpDeliver now event => deliver now event tr
  | OpDestroy => destroy tr
  end.

Definition runTracker (ops : list TrackerOp) (tr : Tracker) : Tracker :=
  fold_left stepTracker ops tr.

End TrackerDispatch.

(** ** src/utils/debounce.ts and src/utils/throttle.ts *)

Section Timers.

(** The arguments a wrapped function is called with. *)
Variable Args : Type.

(** [ms], the delay given to [debounce] or [throttle]. *)
Variable ms : Z.

(** When a timer set by [setTimeout(f, delay)] at time [now] is due; a
    negative delay counts as zero. *)
Definition dueTime (now delay : Z) : Z := (now + Z.max 0 delay)%Z.

(** The closure state of a debounced function: [None] when [timeoutId]
    is [null], otherwise the due time of the live timer and the
    arguments its callback captured. *)
Definition Debounced : Type := option (Z * Args).

(** [debounced(...args)] at time [now]: a live timer is cleared, a new
    one is set. *)
Definition debounced (now : Z) (args : Args) (st : Debounced) : Debounced :=
  Some (dueTime now ms, args).

Definition debounceCancel (st : Debounced) : Debounced := None.

(** The platform at time [now]: a live timer that is due runs its
    callback, which resets [timeoutId] and calls [fn]. *)
Definition debounceTimer (now : Z) (st : Debounced) : Debounced * list Args :=
  match st with
  | Some (due, args) => if (due <=? now)%Z then (None, [args]) else (st, [])
  | None => (None, [])
  end.

(** The closure state of a throttled function; [timeoutId] holds the due
    time of the live timer. *)
Record Throttled : Type :=
  mkThrottled {
    lastCallTime : Z;
    timeoutId : option Z;
    lastArgs : option Args
  }.

Definition throttleInit : Throttled := mkThrottled 0 None None.

(** [throttled(...args)] when [Date.now()] is [now]: the new state and
    the calls of [fn] made. *)
Definition throttled (now : Z) (args : Args) (st : Throttled)
  : Throttled * list Args :=
  let elapsed := (now - lastCallTime st)%Z in
  if (ms <=? elapsed)%Z then
    (mkThrottled now (timeoutId st) (lastArgs st), [args])
  else
    (mkThrottled (lastCallTime st)
       (match timeoutId st with
        | None => Some (dueTime now (ms - elapsed))
        | Some due => Some due
        end)
       (Some args),
     []).

(** The platform at time [now]: a live timer that is due runs its
    callback. *)
Definition throttleTimer (now : Z) (st : Throttled) : Throttled * list Args :=
  match timeoutId st with
  | Some due =>
      if (due <=? now)%Z then
        (mkThrottled now None None,
         match lastArgs st with Some args => [args] | None => [] end)
      else (st, [])
  | None => (st, [])
  end.

Definition throttleCancel (st : Throttled) : Throttled :=
  mkThrottled (lastCallTime st) None None.

(** What can happen to a wrapped function. *)
Inductive TimerOp : Type :=
| Call (now : Z) (args : Args)
| Tick (now : Z)
| Cancel.

Definition stepDebounce (acc : Debounced * list Args) (op : TimerOp)
  : Debounced * list Args :=
  match op with
  | Call now args => (debounced now args (fst acc), snd acc)
  | Tick now =>
      let (st, out) := debounceTimer now (fst acc) in (st, snd acc ++ out)
  | Cancel => (debounceCancel (fst acc), snd acc)
  end.

(** The state after a trace and the arguments [fn] was called with. *)
Definition runDebounce (ops : list TimerOp) (st : Debounced)
  : Debounced * list Args :=
  fold_left stepDebounce ops (st, []).

Definition stepThrottle (acc : Throttled * list Args) (op : TimerOp)
  : Throttled * list Args :=
  match op with
  | Call now args =>
      let (st, out) := throttled now args (fst acc) in (st, snd acc ++ out)
  | Tick now =>
      let (st, out) := throttleTimer now (fst acc) in (st, snd acc ++ out)
  | Cancel => (throttleCancel (fst acc), snd acc)
  end.

Definition runThrottle (ops : list TimerOp) (st : Throttled)
  : Throttled * list Args :=
  fold_left stepThrottle ops (st, []).

End Timers.

(** ** Vocabulary and data for the remaining operations *)

(** Every registered entry has a document listener for its event type. *)
Definition listenersCoverRegistry (tr : Tracker) : Prop :=
  forall entry,
    In entry (entries (pipeline tr)) ->
    In (entry_eventType entry) (domListeners tr).

Module Demo2.

Definition onceListener : RegistryEntry :=
  mkEntry 8 "click" (mkOptions None None true None).

Definition inputListener : RegistryEntry :=
  mkEntry 9 "input" (mkOptions None None false None).

Definition clickRecord : TrackEvent :=
  mkTrackEvent "click" 9 (extractElementInfo Demo.outsideButton) None
    (Demo.click Demo.outsideButton) None.

Definition plain : ListenerOptions := mkOptions None None false None.

End Demo2.

(** * Properties *)

Unset Implicit Arguments.

(** Every element of a chain of bare [div]s is passable for a click. *)
Tactic Notation "passable_by_cases" integer(n) :=
  let i := fresh "i" in
  let x := fresh "x" in
  let Hi := fresh "Hi" in
  let Hx := fresh "Hx" in
  intros i x Hi Hx;
  do n (destruct i as [|i];
        [vm_compute in Hx; injection Hx as <-;
         split; [reflexivity|split; [reflexivity|intros [key|]; reflexivity]]|]);
  exfalso; lia.

(** ** The resolver *)

Lemma scanKeys_none (keys : list string) :
  (forall key prefix, In key keys -> In prefix FIBER_PREFIXES ->
                      startsWith key prefix = false) ->
  scanKeys keys = None.
Proof.
  induction keys as [|key rest IH]; intros Hno; [reflexivity|].
  cbn [scanKeys].
  assert (Hkey : existsb (startsWith key) FIBER_PREFIXES = false).
  { apply not_true_is_false. intros Hex.
    apply existsb_exists in Hex. destruct Hex as [prefix [Hin Hst]].
    rewrite (Hno key prefix (or_introl eq_refl) Hin) in Hst. discriminate. }
  rewrite Hkey. apply IH. intros k p Hk Hp. apply Hno; [right; exact Hk|exact Hp].
Qed.

Lemma scanKeys_some (keys : list string) (key : string) :
  scanKeys keys = Some key ->
  In key keys /\ exists prefix, In prefix FIBER_PREFIXES /\ startsWith key prefix = true.
Proof.
  induction keys as [|k rest IH]; cbn [scanKeys]; intros H; [discriminate|].
  destruct (existsb (startsWith k) FIBER_PREFIXES) eqn:Hex.
  - injection H as <-. split; [left; reflexivity|].
    apply existsb_exists in Hex. exact Hex.
  - destruct (IH H) as [Hin Hp]. split; [right; exact Hin|exact Hp].
Qed.

Lemma getFiberFromElement_cached (el : Element) (key : string) :
  getFiberFromElement el (Some key)
  = (match getProp el key with Some (Some fiber) => Some fiber | _ => None end,
     Some key).
Proof.
  unfold getFiberFromElement. destruct (getProp el key) as [[f|]|]; reflexivity.
Qed.

Lemma resolveFiber_loop_cached (fuel : nat) :
  forall current depth key,
    cacheAfter (resolveFiber_loop fuel current depth (Some key)) = Some key.
Proof.
  induction fuel as [|fuel IH]; intros current depth key; [reflexivity|].
  cbn [resolveFiber_loop]. destruct current as [cur|]; [|reflexivity].
  destruct (depth <=? MAX_PARENT_DEPTH); [|reflexivity].
  unfold bind. rewrite getFiberFromElement_cached.
  destruct (getProp cur key) as [[f|]|]; try reflexivity; apply IH.
Qed.

(** The fuel handed to the loop by [resolveFiber] is never the reason the
    loop stops: any larger amount gives the same answer. *)
Lemma resolveFiber_fuel (fuel : nat) :
  forall fuel' current depth c,
    S MAX_PARENT_DEPTH - depth <= fuel -> S MAX_PARENT_DEPTH - depth <= fuel' ->
    resolveFiber_loop fuel current depth c = resolveFiber_loop fuel' current depth c.
Proof.
  induction fuel as [|fuel IH]; intros fuel' current depth c H1 H2.
  - destruct fuel' as [|fuel']; [reflexivity|].
    cbn [resolveFiber_loop]. destruct current as [cur|]; [|reflexivity].
    destruct (depth <=? MAX_PARENT_DEPTH) eqn:Hd; [|reflexivity].
    apply Nat.leb_le in Hd. lia.
  - destruct fuel' as [|fuel'].
    + cbn [resolveFiber_loop]. destruct current as [cur|]; [|reflexivity].
      destruct (depth <=? MAX_PARENT_DEPTH) eqn:Hd; [|reflexivity].
      apply Nat.leb_le in Hd. lia.
    + cbn [resolveFiber_loop]. destruct current as [cur|]; [|reflexivity].
      destruct (depth <=? MAX_PARENT_DEPTH) eqn:Hd; [|reflexivity].
      unfold bind. destruct (getFiberFromElement cur c) as [[f|] c']; [reflexivity|].
      apply IH; lia.
Qed.

(** The loop started at depth [depth] on [cur], when the next [d]
    elements miss and leave the cache alone, behaves as the loop started
    [d] levels higher. *)
Lemma resolveFiber_loop_skip (d : nat) :
  forall fuel cur depth c,
    depth + d <= MAX_PARENT_DEPTH ->
    (forall i x, i < d -> ancestor i cur = Some x ->
                 getFiberFromElement x c = (None, c)) ->
    resolveFiber_loop (fuel + d) (Some cur) depth c
    = match ancestor d cur with
      | Some a => resolveFiber_loop fuel (Some a) (depth + d) c
      | None => (None, c)
      end.
Proof.
  induction d as [|d IH]; intros fuel cur depth c Hd Hmiss.
  - cbn [ancestor]. rewrite !Nat.add_0_r. reflexivity.
  - replace (fuel + S d) with (S (fuel + d)) by lia.
    cbn [resolveFiber_loop ancestor].
    assert (Hle : (depth <=? MAX_PARENT_DEPTH) = true) by (apply Nat.leb_le; lia).
    rewrite Hle. unfold bind.
    rewrite (Hmiss 0 cur); [|lia|reflexivity].
    destruct (parentElement cur) as [p|] eqn:Hp.
    + rewrite IH; [replace (S depth + d) with (depth + S d) by lia; reflexivity|lia|].
      intros i x Hi Hx. apply (Hmiss (S i) x); [lia|].
      cbn [ancestor]. rewrite Hp. exact Hx.
    + destruct (fuel + d); reflexivity.
Qed.

(** C5: once [cachedKey] holds a name, a lookup reads exactly that
    property of the given element and leaves the cache as it is, for
    [getFiberFromElement] and for [resolveFiber]; so an element that
    lacks the cached name resolves to absent whatever other prefixed
    names it carries; and a first lookup on an element none of whose own
    property names starts with a known prefix answers absent and leaves
    the cache unset. *)
Theorem C5_cached_name_is_exact_and_stable (el : Element) (key : string) :
  getFiberFromElement el (Some key)
  = (match getProp el key with Some (Some fiber) => Some fiber | _ => None end,
     Some key)
  /\ cacheAfter (resolveFiber el (Some key)) = Some key
  /\ (getProp el key = None ->
      result (getFiberFromElement el (Some key)) = None)
  /\ (carriesNoFiberKey el -> getFiberFromElement el None = (None, None))
  /\ (forall r found, getFiberFromElement el None = (r, Some found) ->
        In found (ownKeys el)
        /\ exists prefix, In prefix FIBER_PREFIXES /\ startsWith found prefix = true).
Proof.
  split; [apply getFiberFromElement_cached|].
  split; [apply resolveFiber_loop_cached|].
  split.
  { intros Hnone. rewrite getFiberFromElement_cached, Hnone. reflexivity. }
  split.
  { intros Hno. unfold getFiberFromElement.
    rewrite (scanKeys_none (ownKeys el) Hno). reflexivity. }
  intros r found H. unfold getFiberFromElement in H.
  destruct (scanKeys (ownKeys el)) as [k|] eqn:Hscan; [|discriminate].
  injection H as _ <-. apply scanKeys_some. exact Hscan.
Qed.

(** C5, on the two elements whose keys share the prefix and differ in
    suffix: the first resolution caches ["__reactFiber$abc"], the second
    element then resolves to absent, and the cache still holds the first
    name. *)
Lemma C5_cached_name_witness :
  getFiberFromElement Demo.firstSeen None
  = (Some Demo.clickFiber, Some "__reactFiber$abc")
  /\ getProp Demo.otherSuffix "__reactFiber$abc" = None
  /\ result (getFiberFromElement Demo.otherSuffix (Some "__reactFiber$abc")) = None
  /\ resolveFiber Demo.otherSuffix (Some "__reactFiber$abc")
     = (None, Some "__reactFiber$abc")
  /\ getFiberFromElement Demo.body None = (None, None).
Proof.
  destruct (C5_cached_name_is_exact_and_stable Demo.otherSuffix "__reactFiber$abc")
    as (_ & _ & Hmiss & _).
  destruct (C5_cached_name_is_exact_and_stable Demo.body "__reactFiber$abc")
    as (_ & _ & _ & Hnone & _).
  split; [reflexivity|].
  split; [reflexivity|].
  split; [apply Hmiss; reflexivity|].
  split; [reflexivity|].
  apply Hnone. intros key prefix Hin. inversion Hin.
Defined.

(** C2, as stated, fails: the bare [span] and the bare [button] carry no
    property at all, their parent [div] carries a fiber, and both the
    handler-prop check of the filter and the enrichment step of the
    pipeline obtain the parent's fiber for them instead of absent. *)
Lemma C2_resolution_reads_ancestors :
  ownProps Demo.bareSpan = []
  /\ ownProps Demo.bareButton = []
  /\ result (resolveFiber Demo.bareSpan None) = Some Demo.clickFiber
  /\ result (isInteractiveElement Demo.bareSpan "click" None) = true
  /\ option_map (@te_rawFiberNode)
       (getLastEvent
          (handleEvent Demo.matches (mkConfig true [] None false) 0
             (Demo.click Demo.bareButton) (Demo.freshWorld [])))
     = Some (Some Demo.clickFiber)
  /\ ~ (forall el c, ownProps el = [] -> result (resolveFiber el c) = None).
Proof.
  repeat (split; [reflexivity|]).
  intros H. specialize (H Demo.bareSpan None eq_refl). discriminate H.
Qed.

(** C2, amended: [resolveFiber] reads the given element first and then
    walks its [parentElement] chain, at most [MAX_PARENT_DEPTH] levels
    up.  When the elements below depth [d <= 10] miss and the ancestor at
    depth [d] yields a fiber, that fiber is the result; when every
    element of the chain up to depth 10 misses, the result is absent.
    The handler-prop check and the enrichment step both call this
    function. *)
Theorem C2_resolution_walks_up_to_ten_ancestors
    (el : Element) (c : option string) :
  (forall d a fiber c',
      d <= MAX_PARENT_DEPTH ->
      (forall i x, i < d -> ancestor i el = Some x ->
                   getFiberFromElement x c = (None, c)) ->
      ancestor d el = Some a ->
      getFiberFromElement a c = (Some fiber, c') ->
      resolveFiber el c = (Some fiber, c'))
  /\ ((forall i x, i <= MAX_PARENT_DEPTH -> ancestor i el = Some x ->
                   getFiberFromElement x c = (None, c)) ->
      resolveFiber el c = (None, c)).
Proof.
  split.
  - intros d a fiber c' Hd Hmiss Ha Hhit.
    unfold resolveFiber.
    replace (S MAX_PARENT_DEPTH) with (S (MAX_PARENT_DEPTH - d) + d) by lia.
    rewrite resolveFiber_loop_skip; [|lia|exact Hmiss].
    rewrite Ha. cbn [resolveFiber_loop].
    assert (Hle : (0 + d <=? MAX_PARENT_DEPTH) = true) by (apply Nat.leb_le; lia).
    rewrite Hle. unfold bind. rewrite Hhit. reflexivity.
  - intros Hmiss. unfold resolveFiber.
    replace (S MAX_PARENT_DEPTH) with (1 + MAX_PARENT_DEPTH) by reflexivity.
    rewrite resolveFiber_loop_skip; [|lia|].
    + destruct (ancestor MAX_PARENT_DEPTH el) as [a|] eqn:Ha; [|reflexivity].
      cbn [resolveFiber_loop]. rewrite Nat.leb_refl. unfold bind.
      rewrite (Hmiss MAX_PARENT_DEPTH a (le_n _) Ha). reflexivity.
    + intros i x Hi Hx. apply (Hmiss i x); [lia|exact Hx].
Qed.

(** C2 amended, on the bare [span]: its parent at depth 1 carries the
    fiber; and on [body], whose chain carries none. *)
Lemma C2_resolution_walks_witness :
  resolveFiber Demo.bareSpan None = (Some Demo.clickFiber, Some "__reactFiber$abc")
  /\ resolveFiber Demo.body None = (None, None).
Proof.
  destruct (C2_resolution_walks_up_to_ten_ancestors Demo.bareSpan None) as [Hhit _].
  destruct (C2_resolution_walks_up_to_ten_ancestors Demo.body None) as [_ Hmiss].
  split.
  - apply (Hhit 1 Demo.fiberDiv).
    + unfold MAX_PARENT_DEPTH. lia.
    + intros i x Hi Hx. destruct i as [|i]; [|lia].
      injection Hx as <-. reflexivity.
    + reflexivity.
    + reflexivity.
  - apply Hmiss. intros i x _ Hx. destruct i as [|i].
    + injection Hx as <-. reflexivity.
    + discriminate Hx.
Defined.

(** ** The extractor *)

Lemma returnChain_length (n : nat) :
  forall current, List.length (returnChain n current) <= n.
Proof.
  induction n as [|n IH]; intros [cur|]; cbn [returnChain List.length]; try lia.
  specialize (IH (freturn cur)). lia.
Qed.

Lemma componentNames_length (nodes : list FiberNode) :
  List.length (componentNames nodes) <= List.length nodes.
Proof.
  induction nodes as [|node rest IH]; cbn [componentNames List.length]; [lia|].
  destruct (getComponentName node); cbn [List.length]; lia.
Qed.

(** What the loop adds to its two locals: the names met on the next
    [fuel] nodes, and the first of them if no name was held yet. *)
Lemma extractComponentInfo_loop_names (fuel : nat) :
  forall current depth held stack,
    depth + fuel <= MAX_STACK_DEPTH ->
    extractComponentInfo_loop fuel current depth held stack
    = (match held with
       | Some _ => held
       | None => hd_error (componentNames (returnChain fuel current))
       end,
       stack ++ componentNames (returnChain fuel current)).
Proof.
  induction fuel as [|fuel IH]; intros current depth held stack Hd.
  - cbn. rewrite app_nil_r. destruct held; reflexivity.
  - cbn [extractComponentInfo_loop returnChain].
    destruct current as [cur|].
    + assert (Hlt : (depth <? MAX_STACK_DEPTH) = true) by (apply Nat.ltb_lt; lia).
      rewrite Hlt. cbn [componentNames].
      destruct (getComponentName cur) as [name|].
      * rewrite IH by lia. rewrite <- app_assoc. cbn [app hd_error].
        destruct held; reflexivity.
      * rewrite IH by lia. reflexivity.
    + cbn. rewrite app_nil_r. destruct held; reflexivity.
Qed.

(** The loop never stops for want of fuel: past [MAX_STACK_DEPTH - depth]
    any amount gives the same answer. *)
Lemma extractComponentInfo_fuel (fuel : nat) :
  forall fuel' current depth held stack,
    MAX_STACK_DEPTH - depth <= fuel -> MAX_STACK_DEPTH - depth <= fuel' ->
    extractComponentInfo_loop fuel current depth held stack
    = extractComponentInfo_loop fuel' current depth held stack.
Proof.
  induction fuel as [|fuel IH]; intros fuel' current depth held stack H1 H2.
  - destruct fuel' as [|fuel']; [reflexivity|].
    cbn [extractComponentInfo_loop]. destruct current as [cur|]; [|reflexivity].
    destruct (depth <? MAX_STACK_DEPTH) eqn:Hd; [|reflexivity].
    apply Nat.ltb_lt in Hd. lia.
  - destruct fuel' as [|fuel'].
    + cbn [extractComponentInfo_loop]. destruct current as [cur|]; [|reflexivity].
      destruct (depth <? MAX_STACK_DEPTH) eqn:Hd; [|reflexivity].
      apply Nat.ltb_lt in Hd. lia.
    + cbn [extractComponentInfo_loop]. destruct current as [cur|]; [|reflexivity].
      destruct (depth <? MAX_STACK_DEPTH) eqn:Hd; [|reflexivity].
      destruct (getComponentName cur); apply IH; lia.
Qed.

(** C9: the component stack is made of the names met on the first 50
    nodes of the [return] chain that starts at the parent of the given
    node (the node's own type plays no part), in that order;
    [componentName] is the first of them; a node whose type is a string
    contributes no name; a component is named by its [displayName] when
    it has one and by its intrinsic name otherwise; and on the chain
    App -> Form -> SubmitButton -> button the stack is SubmitButton,
    Form, App and the component name SubmitButton. *)
Theorem C9_component_stack_from_parent_chain (fiber : FiberNode) :
  let names := componentNames (returnChain MAX_STACK_DEPTH (freturn fiber)) in
  extractComponentInfo fiber = (hd_error names, names)
  /\ extractFiberInfo (Some fiber)
     = Some (mkFiberInfo (hd_error names) names (extractHandlers fiber))
  /\ List.length names <= 50
  /\ (forall uid tag props parent,
        getComponentName (mkFiber uid (TypeString tag) props parent) = None)
  /\ (forall uid display name props parent,
        getComponentName (mkFiber uid (TypeFunction (Some display) name) props parent)
        = Some display)
  /\ (forall uid name props parent,
        getComponentName (mkFiber uid (TypeFunction None name) props parent) = name)
  /\ extractFiberInfo (Some Demo.hostFiber)
     = Some (mkFiberInfo (Some "SubmitButton") ["SubmitButton"; "Form"; "App"] []).
Proof.
  intros names.
  assert (Hinfo : extractComponentInfo fiber = (hd_error names, names)).
  { unfold extractComponentInfo.
    rewrite extractComponentInfo_loop_names by (cbn; lia). reflexivity. }
  split; [exact Hinfo|].
  split; [unfold extractFiberInfo; rewrite Hinfo; reflexivity|].
  split.
  { unfold names.
    pose proof (componentNames_length (returnChain MAX_STACK_DEPTH (freturn fiber))).
    pose proof (returnChain_length MAX_STACK_DEPTH (freturn fiber)).
    unfold MAX_STACK_DEPTH in *. lia. }
  split; [reflexivity|].
  split; [reflexivity|].
  split; [intros uid [name|] props parent; reflexivity|].
  reflexivity.
Qed.

(** ** The filter engine *)

Section FilterProperties.

Variable matches : Element -> string -> bool.


(** The fuel handed to the loop by [findPointerTarget] never runs out. *)
Lemma findPointerTarget_fuel (fuel : nat) :
  forall fuel' current depth ign ev c,
    S MAX_ANCESTOR_DEPTH - depth <= fuel -> S MAX_ANCESTOR_DEPTH - depth <= fuel' ->
    findPointerTarget_loop matches fuel current depth ign ev c
    = findPointerTarget_loop matches fuel' current depth ign ev c.
Proof.
  induction fuel as [|fuel IH]; intros fuel' current depth ign ev c H1 H2.
  - destruct fuel' as [|fuel']; [reflexivity|].
    cbn [findPointerTarget_loop].
    destruct current as [cur|]; [|reflexivity].
    destruct (depth <=? MAX_ANCESTOR_DEPTH) eqn:Hd; [|reflexivity].
    apply Nat.leb_le in Hd. lia.
  - destruct fuel' as [|fuel'].
    + cbn [findPointerTarget_loop].
      destruct current as [cur|]; [|reflexivity].
      destruct (depth <=? MAX_ANCESTOR_DEPTH) eqn:Hd; [|reflexivity].
      apply Nat.leb_le in Hd. lia.
    + cbn [findPointerTarget_loop].
      destruct current as [cur|]; [|reflexivity].
      destruct (depth <=? MAX_ANCESTOR_DEPTH) eqn:Hd; [|reflexivity].
      destruct (isIgnored matches cur ign); [reflexivity|].
      destruct (isDisabled cur); [reflexivity|].
      unfold bind. destruct (isInteractiveElement cur ev c) as [[|] c'];
        [reflexivity|].
      apply IH; lia.
Qed.

(** The walk passes [d] passable elements and goes on [d] levels
    higher, under some cache. *)
Lemma findPointerTarget_loop_skip (d : nat) :
  forall fuel cur depth ign ev c,
    depth + d <= S MAX_ANCESTOR_DEPTH ->
    (forall i x, i < d -> ancestor i cur = Some x -> passable matches x ign ev) ->
    exists c',
      findPointerTarget_loop matches (fuel + d) (Some cur) depth ign ev c
      = match ancestor d cur with
        | Some a => findPointerTarget_loop matches fuel (Some a) (depth + d) ign ev c'
        | None => (None, c')
        end.
Proof.
  induction d as [|d IH]; intros fuel cur depth ign ev c Hd Hpass.
  - exists c. cbn [ancestor]. rewrite !Nat.add_0_r. reflexivity.
  - replace (fuel + S d) with (S (fuel + d)) by lia.
    cbn [findPointerTarget_loop ancestor].
    assert (Hle : (depth <=? MAX_ANCESTOR_DEPTH) = true) by (apply Nat.leb_le; lia).
    rewrite Hle.
    destruct (Hpass 0 cur) as (Hign & Hdis & Hnon); [lia|reflexivity|].
    rewrite Hign, Hdis. unfold bind.
    specialize (Hnon c). unfold result in Hnon.
    destruct (isInteractiveElement cur ev c) as [b c1]. cbn [fst] in Hnon. subst b.
    destruct (parentElement cur) as [p|] eqn:Hp.
    + destruct (IH fuel p (S depth) ign ev c1) as [c' Hc']; [lia| |].
      * intros i x Hi Hx. apply (Hpass (S i) x); [lia|].
        cbn [ancestor]. rewrite Hp. exact Hx.
      * exists c'. rewrite Hc'.
        replace (S depth + d) with (depth + S d) by lia. reflexivity.
    + exists c1. destruct (fuel + d); reflexivity.
Qed.

(** Whatever the walk returns lies on the ancestor chain, and nothing
    on the chain up to it is ignored. *)
Lemma findPointerTarget_loop_found (fuel : nat) :
  forall cur depth ign ev c r,
    result (findPointerTarget_loop matches fuel (Some cur) depth ign ev c) = Some r ->
    exists j, ancestor j cur = Some r
              /\ forall i x, i <= j -> ancestor i cur = Some x ->
                             isIgnored matches x ign = false.
Proof.
  induction fuel as [|fuel IH]; intros cur depth ign ev c r H; [discriminate H|].
  cbn [findPointerTarget_loop] in H.
  destruct (depth <=? MAX_ANCESTOR_DEPTH); [|discriminate H].
  destruct (isIgnored matches cur ign) eqn:Hign; [discriminate H|].
  destruct (isDisabled cur); [discriminate H|].
  unfold bind in H. destruct (isInteractiveElement cur ev c) as [[|] c'].
  - injection H as <-. exists 0. split; [reflexivity|].
    intros i x Hi Hx. assert (i = 0) by lia. subst i.
    injection Hx as <-. exact Hign.
  - destruct (parentElement cur) as [p|] eqn:Hp.
    + destruct (IH p (S depth) ign ev c' r H) as [j [Hj Hclean]].
      exists (S j). split; [cbn [ancestor]; rewrite Hp; exact Hj|].
      intros [|i] x Hi Hx.
      * injection Hx as <-. exact Hign.
      * cbn [ancestor] in Hx. rewrite Hp in Hx. apply (Hclean i x); [lia|exact Hx].
    + destruct fuel; discriminate H.
Qed.

(** C3: for a Pointer event on an HTML element, when the elements at
    depths [0 .. d-1] above the target (the target included) are
    passable and the element at depth [d] is interactive, enabled and
    not ignored, the walk returns that element if [d <= 10] and absent
    otherwise.  A target under 9 passable ancestors has its interactive
    ancestor at depth 10 (found); under 12 it is at depth 13 (absent). *)
Theorem C3_pointer_walk_bounded_at_ten_levels
    (target top : Element) (ign : list string) (ev : string)
    (c : option string) (d : nat) :
  el_isHTML target = true ->
  getEventCategory ev = Pointer ->
  (forall i x, i < d -> ancestor i target = Some x -> passable matches x ign ev) ->
  ancestor d target = Some top ->
  isIgnored matches top ign = false ->
  isDisabled top = false ->
  interactive top ev ->
  result (getTrackableElement matches target ign ev c)
  = if d <=? MAX_ANCESTOR_DEPTH then Some top else None.
Proof.
  intros Hhtml Hcat Hpass Htop Hign Hdis Hint.
  unfold getTrackableElement. rewrite Hhtml, Hcat. cbn [negb].
  unfold findPointerTarget.
  destruct (d <=? MAX_ANCESTOR_DEPTH) eqn:Hd.
  - apply Nat.leb_le in Hd.
    replace (S MAX_ANCESTOR_DEPTH) with (S (MAX_ANCESTOR_DEPTH - d) + d) by lia.
    destruct (findPointerTarget_loop_skip d (S (MAX_ANCESTOR_DEPTH - d))
                target 0 ign ev c) as [c' Hc']; [lia|exact Hpass|].
    rewrite Hc', Htop. cbn [findPointerTarget_loop].
    assert (Hle : (0 + d <=? MAX_ANCESTOR_DEPTH) = true) by (apply Nat.leb_le; lia).
    rewrite Hle, Hign, Hdis. unfold bind.
    specialize (Hint c'). unfold result in Hint.
    destruct (isInteractiveElement top ev c') as [b c'']. cbn [fst] in Hint.
    subst b. reflexivity.
  - apply Nat.leb_gt in Hd.
    destruct (findPointerTarget_loop_skip (S MAX_ANCESTOR_DEPTH) 0
                target 0 ign ev c) as [c' Hc']; [lia| |].
    + intros i x Hi Hx. apply (Hpass i x); [lia|exact Hx].
    + cbn [Nat.add] in Hc'. rewrite Hc'.
      destruct (ancestor (S MAX_ANCESTOR_DEPTH) target); reflexivity.
Qed.

(** C6: a target that matches an ignore selector yields absent in every
    category, whatever its tag, role or disabled state, and the
    resolver's cache is not touched (no reportability test is run); and
    for a Pointer event the walk is aborted by an ignored ancestor:
    whatever it returns lies strictly below every ignored element of
    the chain, and it returns absent when it reaches an ignored
    element, however well an element further up would qualify. *)
Theorem C6_ignore_is_an_absolute_veto
    (target : Element) (ign : list string) (ev : string) (c : option string) :
  (isIgnored matches target ign = true ->
   getTrackableElement matches target ign ev c = (None, c))
  /\ (forall d a r,
        getEventCategory ev = Pointer ->
        ancestor d target = Some a ->
        isIgnored matches a ign = true ->
        result (getTrackableElement matches target ign ev c) = Some r ->
        exists j, j < d /\ ancestor j target = Some r)
  /\ (forall d a,
        getEventCategory ev = Pointer ->
        (forall i x, i < d -> ancestor i target = Some x -> passable matches x ign ev) ->
        ancestor d target = Some a ->
        isIgnored matches a ign = true ->
        result (getTrackableElement matches target ign ev c) = None).
Proof.
  split; [|split].
  - intros Hign. unfold getTrackableElement.
    destruct (el_isHTML target); [|reflexivity]. cbn [negb].
    destruct (getEventCategory ev).
    + unfold findPointerTarget.
      cbn [findPointerTarget_loop Nat.leb]. rewrite Hign. reflexivity.
    + unfold filterFormTarget, ret. rewrite Hign. reflexivity.
    + unfold filterAmbientTarget, ret. rewrite Hign. reflexivity.
  - intros d a r Hcat Ha Hign Hres.
    unfold getTrackableElement in Hres.
    destruct (el_isHTML target); [|discriminate Hres]. cbn [negb] in Hres.
    rewrite Hcat in Hres. unfold findPointerTarget in Hres.
    destruct (findPointerTarget_loop_found _ _ _ _ _ _ _ Hres) as [j [Hj Hclean]].
    exists j. split; [|exact Hj].
    destruct (Nat.lt_ge_cases j d) as [Hlt|Hge]; [exact Hlt|].
    rewrite (Hclean d a Hge Ha) in Hign. discriminate Hign.
  - intros d a Hcat Hpass Ha Hign.
    unfold getTrackableElement.
    destruct (el_isHTML target); [|reflexivity]. cbn [negb].
    rewrite Hcat. unfold findPointerTarget.
    destruct (d <=? MAX_ANCESTOR_DEPTH) eqn:Hd.
    + apply Nat.leb_le in Hd.
      replace (S MAX_ANCESTOR_DEPTH) with (S (MAX_ANCESTOR_DEPTH - d) + d) by lia.
      destruct (findPointerTarget_loop_skip d (S (MAX_ANCESTOR_DEPTH - d))
                  target 0 ign ev c) as [c' Hc']; [lia|exact Hpass|].
      rewrite Hc', Ha. cbn [findPointerTarget_loop].
      assert (Hle : (0 + d <=? MAX_ANCESTOR_DEPTH) = true)
        by (apply Nat.leb_le; lia).
      rewrite Hle, Hign. reflexivity.
    + apply Nat.leb_gt in Hd.
      destruct (findPointerTarget_loop_skip (S MAX_ANCESTOR_DEPTH) 0
                  target 0 ign ev c) as [c' Hc']; [lia| |].
      * intros i x Hi Hx. apply (Hpass i x); [lia|exact Hx].
      * cbn [Nat.add] in Hc'. rewrite Hc'.
        destruct (ancestor (S MAX_ANCESTOR_DEPTH) target); reflexivity.
Qed.

(** C7: a disabled target yields absent for every Form event, whatever
    its tag; for every Ambient event the disabled state is not looked
    at: a disabled HTML target is returned unless it is ignored. *)
Theorem C7_disabled_filters_form_not_ambient
    (target : Element) (ign : list string) (ev : string) (c : option string) :
  isDisabled target = true ->
  filterFormTarget matches target ign = None
  /\ filterAmbientTarget matches target ign
     = (if isIgnored matches target ign then None else Some target)
  /\ (getEventCategory ev = Form ->
      result (getTrackableElement matches target ign ev c) = None)
  /\ (getEventCategory ev = Ambient -> el_isHTML target = true ->
      result (getTrackableElement matches target ign ev c)
      = if isIgnored matches target ign then None else Some target).
Proof.
  intros Hdis.
  assert (Hform : filterFormTarget matches target ign = None).
  { unfold filterFormTarget. rewrite Hdis. destruct (isIgnored matches target ign); reflexivity. }
  split; [exact Hform|].
  split; [reflexivity|].
  split.
  - intros Hcat. unfold getTrackableElement. rewrite Hcat.
    destruct (el_isHTML target); cbn [negb]; [|reflexivity].
    unfold ret, result. cbn [fst]. exact Hform.
  - intros Hcat Hhtml. unfold getTrackableElement.
    rewrite Hcat, Hhtml. reflexivity.
Qed.

End FilterProperties.

(** ** The registry and the pipeline *)

Section PipelineProperties.

Variable matches : Element -> string -> bool.


(** [invoke] calls, in registry order, the wrapped callback of every
    entry subscribed to the event's type whose selector admits the raw
    target. *)
Lemma invoke_loop_calls (iter : list RegistryEntry) :
  forall event entries calls,
    snd (invoke_loop matches iter event entries calls)
    = calls ++ map (fun e => (entry_uid e, event)) (filter (fires matches event) iter).
Proof.
  unfold fires.
  induction iter as [|entry rest IH]; intros event entries calls.
  - cbn. rewrite app_nil_r. reflexivity.
  - cbn [invoke_loop filter].
    destruct (String.eqb (entry_eventType entry) (te_type event));
      cbn [negb andb]; [|apply IH].
    destruct (selectorAdmits matches entry event); cbn [negb]; [|apply IH].
    cbn [map]. destruct (opt_once (entry_options entry));
      rewrite IH, <- app_assoc; reflexivity.
Qed.

(** What [handleEvent] does once the filter has selected [el]. *)
Lemma handleEvent_accepted (config : ResolvedConfig) (now : nat)
    (ev : DomEvent) (w : World) (target el : Element) (c1 : option string) :
  enabled config = true ->
  ev_target ev = TargetElement target ->
  getTrackableElement matches target (ignoreSelectors config) (ev_type ev) (cachedKey w)
  = (Some el, c1) ->
  let raw := result (resolveFiber el c1) in
  let record :=
    mkTrackEvent (ev_type ev) now (extractElementInfo el)
      (extractFiberInfo raw) ev raw in
  handleEvent matches config now ev w
  = mkWorld (cacheAfter (resolveFiber el c1))
      (fst (invoke matches record (entries w) (calls w)))
      (Some record)
      (calls w ++ map (fun e => (entry_uid e, record))
                      (filter (fires matches record) (entries w))).
Proof.
  intros Hen Htarget Hsel raw record.
  unfold handleEvent. rewrite Hen, Htarget. cbn [negb].
  rewrite Hsel. subst record raw. unfold result, cacheAfter.
  destruct (resolveFiber el c1) as [rawFiberNode c2]. cbn [fst snd].
  pose proof (invoke_loop_calls (entries w)
                (mkTrackEvent (ev_type ev) now (extractElementInfo el)
                   (extractFiberInfo rawFiberNode) ev rawFiberNode)
                (entries w) (calls w)) as Hcalls.
  unfold invoke.
  destruct (invoke_loop matches (entries w) _ (entries w) (calls w)) as [es cs].
  cbn [fst snd] in *. rewrite Hcalls. reflexivity.
Qed.

(** C4: after [handleEvent], the last-event slot is unchanged when the
    tracker is disabled, when the target is not an element, and when
    the filter answers absent; when the filter selects an element the
    slot holds the record assembled for this event, whatever the
    registry contains (no listener need be subscribed). *)
Theorem C4_last_event_is_latest_dispatch
    (config : ResolvedConfig) (now : nat) (ev : DomEvent) (w : World) :
  (enabled config = false ->
   getLastEvent (handleEvent matches config now ev w) = getLastEvent w)
  /\ ((forall el, ev_target ev <> TargetElement el) ->
      getLastEvent (handleEvent matches config now ev w) = getLastEvent w)
  /\ (forall target,
        ev_target ev = TargetElement target ->
        result (getTrackableElement matches target (ignoreSelectors config)
                  (ev_type ev) (cachedKey w)) = None ->
        getLastEvent (handleEvent matches config now ev w) = getLastEvent w)
  /\ (forall target el c1,
        enabled config = true ->
        ev_target ev = TargetElement target ->
        getTrackableElement matches target (ignoreSelectors config)
          (ev_type ev) (cachedKey w) = (Some el, c1) ->
        getLastEvent (handleEvent matches config now ev w)
        = Some (mkTrackEvent (ev_type ev) now (extractElementInfo el)
                  (extractFiberInfo (result (resolveFiber el c1)))
                  ev (result (resolveFiber el c1)))).
Proof.
  split; [|split; [|split]].
  - intros Hoff. unfold handleEvent. rewrite Hoff. reflexivity.
  - intros Hnot. unfold handleEvent.
    destruct (negb (enabled config)); [reflexivity|].
    destruct (ev_target ev) as [| |el] eqn:Ht; try reflexivity.
    exfalso. exact (Hnot el eq_refl).
  - intros target Htarget Hnone. unfold handleEvent.
    destruct (negb (enabled config)); [reflexivity|].
    rewrite Htarget. unfold result in Hnone.
    destruct (getTrackableElement matches target (ignoreSelectors config)
                (ev_type ev) (cachedKey w)) as [sel c1].
    cbn [fst] in Hnone. subst sel. reflexivity.
  - intros target el c1 Hen Htarget Hsel.
    rewrite (handleEvent_accepted config now ev w target el c1 Hen Htarget Hsel).
    reflexivity.
Qed.

(** C8: when the filter selects an element for which the resolution
    answers absent, the dispatch completes all the same: the slot holds
    a record whose [fiber] and [rawFiberNode] are absent and whose
    element info is that of the selected element (its tag name in
    particular), and the wrapped callback of every listener subscribed
    to the event is called with that record. *)
Theorem C8_fiber_is_enrichment_not_a_gate
    (config : ResolvedConfig) (now : nat) (ev : DomEvent) (w : World)
    (target el : Element) (c1 : option string) :
  enabled config = true ->
  ev_target ev = TargetElement target ->
  getTrackableElement matches target (ignoreSelectors config) (ev_type ev) (cachedKey w)
  = (Some el, c1) ->
  result (resolveFiber el c1) = None ->
  let record :=
    mkTrackEvent (ev_type ev) now (extractElementInfo el) None ev None in
  getLastEvent (handleEvent matches config now ev w) = Some record
  /\ te_fiber record = None
  /\ te_rawFiberNode record = None
  /\ info_tagName (te_element record) = tagName el
  /\ calls (handleEvent matches config now ev w)
     = calls w ++ map (fun e => (entry_uid e, record))
                      (filter (fires matches record) (entries w)).
Proof.
  intros Hen Htarget Hsel Hmiss record.
  rewrite (handleEvent_accepted config now ev w target el c1 Hen Htarget Hsel).
  rewrite Hmiss. repeat split; reflexivity.
Qed.

(** C10: an event whose target is not an HTML element is never
    reported, in any category: [handleEvent] leaves the last-event
    slot, the registry, the call log and the resolver's cache as they
    were, and [getTrackableElement] answers absent for an element that
    is not an HTML element before it looks at the category. *)
Theorem C10_non_html_targets_are_never_reported
    (config : ResolvedConfig) (now : nat) (ev : DomEvent) (w : World) :
  (forall el, ev_target ev = TargetElement el -> el_isHTML el = false) ->
  handleEvent matches config now ev w = w
  /\ (forall el ign eventType c,
        ev_target ev = TargetElement el ->
        getTrackableElement matches el ign eventType c = (None, c)).
Proof.
  intros Hnot. split.
  - unfold handleEvent.
    destruct (negb (enabled config)); [reflexivity|].
    destruct (ev_target ev) as [| |el] eqn:Ht; try reflexivity.
    unfold getTrackableElement. rewrite (Hnot el eq_refl).
    destruct w; reflexivity.
  - intros el ign eventType c Ht.
    unfold getTrackableElement. rewrite (Hnot el Ht). reflexivity.
Qed.

End PipelineProperties.

(** ** Worked instances *)

(** C3 on the two chains of the claim: the button above 9 nested bare
    ancestors of the target is found, the button above 12 is not. *)
Lemma C3_pointer_walk_witness :
  result (getTrackableElement Demo.matches (Demo.nest 10 Demo.outsideButton)
            [] "click" None) = Some Demo.outsideButton
  /\ result (getTrackableElement Demo.matches (Demo.nest 13 Demo.outsideButton)
               [] "click" None) = None.
Proof.
  split.
  - refine (C3_pointer_walk_bounded_at_ten_levels Demo.matches
              (Demo.nest 10 Demo.outsideButton) Demo.outsideButton [] "click"
              None 10 eq_refl eq_refl _ eq_refl eq_refl eq_refl _).
    + passable_by_cases 10.
    + intros c. reflexivity.
  - refine (C3_pointer_walk_bounded_at_ten_levels Demo.matches
              (Demo.nest 13 Demo.outsideButton) Demo.outsideButton [] "click"
              None 13 eq_refl eq_refl _ eq_refl eq_refl eq_refl _).
    + passable_by_cases 13.
    + intros c. reflexivity.
Defined.

(** C6 on a disabled button with an interactive role that matches
    [.no-track], for a Pointer, a Form and an Ambient event; on a button
    inside an ignored section (returned: the walk stops below the
    section); and on a bare [span] inside the ignored section, itself
    inside a link (absent: the walk is aborted at the section). *)
Lemma C6_ignore_witness :
  getTrackableElement Demo.matches Demo.ignoredDisabledButton [".no-track"]
    "click" None = (None, None)
  /\ getTrackableElement Demo.matches Demo.ignoredDisabledButton [".no-track"]
       "change" None = (None, None)
  /\ getTrackableElement Demo.matches Demo.ignoredDisabledButton [".no-track"]
       "keydown" None = (None, None)
  /\ (exists j, j < 1 /\ ancestor j Demo.buttonInIgnored = Some Demo.buttonInIgnored)
  /\ result (getTrackableElement Demo.matches Demo.spanInIgnored [".no-track"]
               "click" None) = None.
Proof.
  split; [|split; [|split; [|split]]].
  - apply (C6_ignore_is_an_absolute_veto Demo.matches Demo.ignoredDisabledButton
             [".no-track"] "click" None). reflexivity.
  - apply (C6_ignore_is_an_absolute_veto Demo.matches Demo.ignoredDisabledButton
             [".no-track"] "change" None). reflexivity.
  - apply (C6_ignore_is_an_absolute_veto Demo.matches Demo.ignoredDisabledButton
             [".no-track"] "keydown" None). reflexivity.
  - destruct (C6_ignore_is_an_absolute_veto Demo.matches Demo.buttonInIgnored
                [".no-track"] "click" None) as (_ & Hbelow & _).
    apply (Hbelow 1 Demo.ignoredSection Demo.buttonInIgnored); reflexivity.
  - destruct (C6_ignore_is_an_absolute_veto Demo.matches Demo.spanInIgnored
                [".no-track"] "click" None) as (_ & _ & Habort).
    apply (Habort 1 Demo.ignoredSection); try reflexivity.
    unfold passable. passable_by_cases 1.
Defined.

(** C7 on a disabled [input] for the Form event [focus], and on a [div]
    with [aria-disabled="true"] for the Ambient event [scroll] and for an
    event name outside the table. *)
Lemma C7_disabled_witness :
  result (getTrackableElement Demo.matches Demo.disabledInput [] "focus" None)
  = None
  /\ result (getTrackableElement Demo.matches Demo.ariaDisabledDiv [] "scroll" None)
     = Some Demo.ariaDisabledDiv
  /\ result (getTrackableElement Demo.matches Demo.ariaDisabledDiv []
               "custom-event" None)
     = Some Demo.ariaDisabledDiv.
Proof.
  split; [|split].
  - destruct (C7_disabled_filters_form_not_ambient Demo.matches Demo.disabledInput
                [] "focus" None eq_refl) as (_ & _ & Hform & _).
    apply Hform. reflexivity.
  - destruct (C7_disabled_filters_form_not_ambient Demo.matches
                Demo.ariaDisabledDiv [] "scroll" None eq_refl)
      as (_ & _ & _ & Hambient).
    apply Hambient; reflexivity.
  - destruct (C7_disabled_filters_form_not_ambient Demo.matches
                Demo.ariaDisabledDiv [] "custom-event" None eq_refl)
      as (_ & _ & _ & Hambient).
    apply Hambient; reflexivity.
Defined.

(** C10 on a [scroll] whose target is an SVG circle and on a [click]
    whose target is not an element. *)
Lemma C10_non_html_witness :
  handleEvent Demo.matches (mkConfig true [] None false) 3
    (mkEvent 101 "scroll" (TargetElement Demo.svgCircle))
    (Demo.freshWorld [Demo.clickListener])
  = Demo.freshWorld [Demo.clickListener]
  /\ handleEvent Demo.matches (mkConfig true [] None false) 3
       (mkEvent 102 "click" TargetNode) Demo.usedWorld
     = Demo.usedWorld.
Proof.
  split.
  - apply (C10_non_html_targets_are_never_reported Demo.matches
             (mkConfig true [] None false) 3
             (mkEvent 101 "scroll" (TargetElement Demo.svgCircle))
             (Demo.freshWorld [Demo.clickListener])).
    intros el Hel. injection Hel as <-. reflexivity.
  - apply (C10_non_html_targets_are_never_reported Demo.matches
             (mkConfig true [] None false) 3
             (mkEvent 102 "click" TargetNode) Demo.usedWorld).
    intros el Hel. discriminate Hel.
Defined.

(** C4 on a world whose slot holds an earlier record: a disabled
    tracker, a target that is not an element and a click on [body] leave
    the slot as it is; a click on the button overwrites it although the
    registry is empty. *)
Lemma C4_last_event_witness :
  getLastEvent (handleEvent Demo.matches (mkConfig false [] None false) 9
                  (Demo.click Demo.outsideButton) Demo.usedWorld)
  = Some Demo.priorRecord
  /\ getLastEvent (handleEvent Demo.matches (mkConfig true [] None false) 9
                     (mkEvent 102 "click" TargetNode) Demo.usedWorld)
     = Some Demo.priorRecord
  /\ getLastEvent (handleEvent Demo.matches (mkConfig true [] None false) 9
                     (Demo.click Demo.body) Demo.usedWorld)
     = Some Demo.priorRecord
  /\ getLastEvent (handleEvent Demo.matches (mkConfig true [] None false) 9
                     (Demo.click Demo.outsideButton) Demo.usedWorld)
     = Some (mkTrackEvent "click" 9 (extractElementInfo Demo.outsideButton)
               None (Demo.click Demo.outsideButton) None).
Proof.
  split; [|split; [|split]].
  - destruct (C4_last_event_is_latest_dispatch Demo.matches
                (mkConfig false [] None false) 9
                (Demo.click Demo.outsideButton) Demo.usedWorld) as (Hoff & _).
    apply Hoff. reflexivity.
  - destruct (C4_last_event_is_latest_dispatch Demo.matches
                (mkConfig true [] None false) 9
                (mkEvent 102 "click" TargetNode) Demo.usedWorld)
      as (_ & Hnode & _).
    apply Hnode. intros el Hel. discriminate Hel.
  - destruct (C4_last_event_is_latest_dispatch Demo.matches
                (mkConfig true [] None false) 9
                (Demo.click Demo.body) Demo.usedWorld)
      as (_ & _ & Hrejected & _).
    apply (Hrejected Demo.body); reflexivity.
  - destruct (C4_last_event_is_latest_dispatch Demo.matches
                (mkConfig true [] None false) 9
                (Demo.click Demo.outsideButton) Demo.usedWorld)
      as (_ & _ & _ & Haccepted).
    apply (Haccepted Demo.outsideButton Demo.outsideButton None); reflexivity.
Defined.

(** C8 on a click on a button that carries no fiber, with one click
    listener subscribed: the record has tag name BUTTON and no fiber, and
    the listener is called with it. *)
Lemma C8_fiber_enrichment_witness :
  let record :=
    mkTrackEvent "click" 9 (extractElementInfo Demo.outsideButton) None
      (Demo.click Demo.outsideButton) None in
  let w' :=
    handleEvent Demo.matches (mkConfig true [] None false) 9
      (Demo.click Demo.outsideButton) (Demo.freshWorld [Demo.clickListener]) in
  getLastEvent w' = Some record
  /\ info_tagName (te_element record) = "BUTTON"
  /\ calls w' = [(7, record)].
Proof.
  destruct (C8_fiber_is_enrichment_not_a_gate Demo.matches
              (mkConfig true [] None false) 9 (Demo.click Demo.outsideButton)
              (Demo.freshWorld [Demo.clickListener])
              Demo.outsideButton Demo.outsideButton None
              eq_refl eq_refl eq_refl eq_refl) as (Hlast & _ & _ & Htag & Hcalls).
  split; [exact Hlast|]. split; [exact Htag|exact Hcalls].
Defined.

(** C1, evaluated: with [includeSelectors] set to [nav a], a click on a
    button outside [nav], which does not match the selector, is
    dispatched all the same, as is a click on the link inside [nav];
    [handleEvent] gives the same world whatever [includeSelectors]
    holds. *)
Theorem C1_include_selectors_are_never_read :
  Demo.matches Demo.navLink "nav a" = true
  /\ Demo.matches Demo.outsideButton "nav a" = false
  /\ option_map (fun r => info_tagName (te_element r))
       (getLastEvent
          (handleEvent Demo.matches (mkConfig true [] (Some ["nav a"]) false) 9
             (Demo.click Demo.navLink) (Demo.freshWorld [Demo.clickListener])))
     = Some "A"
  /\ option_map (fun r => info_tagName (te_element r))
       (getLastEvent
          (handleEvent Demo.matches (mkConfig true [] (Some ["nav a"]) false) 9
             (Demo.click Demo.outsideButton)
             (Demo.freshWorld [Demo.clickListener])))
     = Some "BUTTON"
  /\ (forall matches config include now ev w,
        handleEvent matches
          (mkConfig (enabled config) (ignoreSelectors config) include (debug config))
          now ev w
        = handleEvent matches config now ev w).
Proof.
  repeat (split; [reflexivity|]).
  intros matches config include now ev w. reflexivity.
Qed.

(** * Further properties *)

(** ** The event tables and the handler extraction *)

Lemma assoc_absent (A : Type) (k : string) (o : list (string * A)) :
  ~ In k (map fst o) -> assoc k o = None.
Proof.
  induction o as [|[k' v] rest IH]; intros Hno; [reflexivity|].
  cbn [assoc]. destruct (String.eqb k' k) eqn:Hk.
  - apply String.eqb_eq in Hk. exfalso. apply Hno. left. exact Hk.
  - apply IH. intros Hin. apply Hno. right. exact Hin.
Qed.



(** X2: every candidate handler name of every event starts with the
    prefix that [extractHandlers] keeps, and a Pointer event always has
    candidates, so the handler check of [isInteractiveElement] is never
    skipped for it. *)
Theorem X2_handler_candidates_are_consistent (eventType : string) :
  (forall handler, In handler (getHandlersForEvent eventType) ->
                   startsWith handler HANDLER_PREFIX = true)
  /\ (getEventCategory eventType = Pointer ->
      getHandlersForEvent eventType <> []).
Proof.
  unfold getHandlersForEvent, getEventCategory, EVENT_HANDLER_MAP, CATEGORY_MAP.
  cbn [assoc].
  repeat match goal with
         | |- context [String.eqb ?s eventType] =>
             destruct (String.eqb s eventType)
         end;
    (split;
     [ intros handler Hin; cbn in Hin;
       repeat (destruct Hin as [Hin|Hin]; [subst handler; reflexivity|]);
       contradiction
     | intros Hcat; try discriminate Hcat; intros Hnil; discriminate Hnil ]).
Qed.

Lemma X2_handler_candidates_witness :
  startsWith "onPointerDown" HANDLER_PREFIX = true
  /\ getHandlersForEvent "touchend" <> [].
Proof.
  split.
  - apply (proj1 (X2_handler_candidates_are_consistent "click")).
    cbn. right. right. right. left. reflexivity.
  - apply (proj2 (X2_handler_candidates_are_consistent "touchend")).
    reflexivity.
Defined.

(** X3: [extractHandlers] returns exactly the keys of [memoizedProps]
    that start with [on] and hold a function, and nothing when the props
    are absent. *)
Theorem X3_handlers_are_the_callable_on_props (fiber : FiberNode) (h : string) :
  (In h (extractHandlers fiber) <->
   exists props, memoizedProps fiber = Some props
                 /\ In (h, VFunction) props
                 /\ startsWith h HANDLER_PREFIX = true)
  /\ (memoizedProps fiber = None -> extractHandlers fiber = []).
Proof.
  unfold extractHandlers. split.
  - destruct (memoizedProps fiber) as [props|].
    + split.
      * intros Hin. apply in_map_iff in Hin. destruct Hin as [[k v] [Hk Hf]].
        cbn [fst] in Hk. subst k. apply filter_In in Hf. destruct Hf as [Hin Hok].
        cbn [fst snd] in Hok. apply andb_true_iff in Hok. destruct Hok as [Hon Hfn].
        destruct v; [|discriminate Hfn].
        exists props. repeat split; assumption.
      * intros [props' [Heq [Hin Hon]]]. injection Heq as <-.
        apply in_map_iff. exists (h, VFunction). split; [reflexivity|].
        apply filter_In. split; [exact Hin|]. cbn [fst snd]. rewrite Hon. reflexivity.
    + split; [intros []|intros [props [Heq _]]; discriminate Heq].
  - intros Hnone. rewrite Hnone. reflexivity.
Qed.

Lemma X3_handlers_witness :
  In "onClick" (extractHandlers Demo.clickFiber)
  /\ extractHandlers (mkFiber 0 TypeOther None None) = [].
Proof.
  split.
  - apply (proj1 (X3_handlers_are_the_callable_on_props Demo.clickFiber "onClick")).
    exists [("onClick", VFunction)]. repeat split. left. reflexivity.
  - apply (proj2 (X3_handlers_are_the_callable_on_props
                    (mkFiber 0 TypeOther None None) "onClick")).
    reflexivity.
Defined.

(** X4: the [text] field is the first 100 code units of the trimmed
    text content, so it never exceeds 100 code units and is the whole
    trimmed content when that is short enough. *)
Theorem X4_text_is_truncated_to_100
    (CodeUnit : Type) (trim : list CodeUnit -> list CodeUnit)
    (textContent : option (list CodeUnit)) :
  let trimmed := trim (match textContent with Some t => t | None => [] end) in
  extractText trim textContent = firstn 100 trimmed
  /\ List.length (extractText trim textContent) <= 100
  /\ (List.length trimmed <= 100 -> extractText trim textContent = trimmed).
Proof.
  intros trimmed.
  assert (Heq : extractText trim textContent = firstn 100 trimmed).
  { unfold extractText. fold trimmed. unfold MAX_TEXT_LENGTH.
    destruct (100 <? List.length trimmed) eqn:Hlen; [reflexivity|].
    apply Nat.ltb_ge in Hlen. symmetry. apply firstn_all2. exact Hlen. }
  split; [exact Heq|]. split.
  - rewrite Heq. apply firstn_le_length.
  - intros Hshort. rewrite Heq. apply firstn_all2. exact Hshort.
Qed.

Lemma X4_text_witness :
  extractText (fun s : list nat => s) (Some (repeat 97 200)) = repeat 97 100
  /\ extractText (fun s : list nat => s) (Some [104; 105]) = [104; 105].
Proof.
  split.
  - apply (proj1 (X4_text_is_truncated_to_100 nat (fun s : list nat => s)
                    (Some (repeat 97 200)))).
  - apply (proj2 (proj2 (X4_text_is_truncated_to_100 nat (fun s : list nat => s)
                           (Some [104; 105])))).
    cbn. lia.
Defined.

(** ** The resolver, further *)

Lemma getFiberFromElement_hit (x : Element) (c c1 : option string) (f : FiberNode) :
  getFiberFromElement x c = (Some f, c1) ->
  exists key, c1 = Some key /\ getProp x key = Some (Some f).
Proof.
  unfold getFiberFromElement. destruct c as [key|].
  - destruct (getProp x key) as [[g|]|] eqn:Hp; intros H; try discriminate H.
    injection H as <- <-. exists key. split; [reflexivity|exact Hp].
  - destruct (scanKeys (ownKeys x)) as [key|]; [|intros H; discriminate H].
    destruct (getProp x key) as [[g|]|] eqn:Hp; intros H; try discriminate H.
    injection H as <- <-. exists key. split; [reflexivity|exact Hp].
Qed.

Lemma resolveFiber_loop_hit (fuel : nat) :
  forall x depth c f c',
    resolveFiber_loop fuel (Some x) depth c = (Some f, c') ->
    exists d a key,
      depth + d <= MAX_PARENT_DEPTH /\ ancestor d x = Some a
      /\ c' = Some key /\ getProp a key = Some (Some f).
Proof.
  induction fuel as [|fuel IH]; intros x depth c f c' H; [discriminate H|].
  cbn [resolveFiber_loop] in H.
  destruct (depth <=? MAX_PARENT_DEPTH) eqn:Hd; [|discriminate H].
  apply Nat.leb_le in Hd. unfold bind in H.
  destruct (getFiberFromElement x c) as [[g|] c1] eqn:Hg.
  - injection H as <- <-.
    destruct (getFiberFromElement_hit x c c1 g Hg) as [key [Hc Hp]].
    exists 0, x, key. repeat split; [lia|exact Hc|exact Hp].
  - destruct (parentElement x) as [p|] eqn:Hp.
    + destruct (IH p (S depth) c1 f c' H) as (d & a & key & Hle & Ha & Hc & Hprop).
      exists (S d), a, key. repeat split; [lia| |exact Hc|exact Hprop].
      cbn [ancestor]. rewrite Hp. exact Ha.
    + destruct fuel; discriminate H.
Qed.

(** X5: a fiber returned by [resolveFiber] is stored on the element or on
    one of its first 10 ancestors, never higher, under the property name
    that the cache holds afterwards. *)
Theorem X5_resolved_fiber_comes_from_the_first_ten_ancestors
    (el : Element) (c c' : option string) (fiber : FiberNode) :
  resolveFiber el c = (Some fiber, c') ->
  exists d a key,
    d <= 10 /\ ancestor d el = Some a
    /\ c' = Some key /\ getProp a key = Some (Some fiber).
Proof.
  intros H. unfold resolveFiber in H.
  destruct (resolveFiber_loop_hit _ _ _ _ _ _ H) as (d & a & key & Hle & Hrest).
  exists d, a, key. split; [exact Hle|exact Hrest].
Qed.

Lemma X5_resolved_fiber_witness :
  exists d a key,
    d <= 10 /\ ancestor d Demo.bareSpan = Some a
    /\ Some "__reactFiber$abc" = Some key
    /\ getProp a key = Some (Some Demo.clickFiber).
Proof.
  apply (X5_resolved_fiber_comes_from_the_first_ten_ancestors
           Demo.bareSpan None (Some "__reactFiber$abc") Demo.clickFiber).
  reflexivity.
Defined.

Lemma scanKeys_none_inv (keys : list string) (key : string) :
  scanKeys keys = None -> In key keys ->
  existsb (startsWith key) FIBER_PREFIXES = false.
Proof.
  induction keys as [|k rest IH]; intros Hscan Hin; [destruct Hin|].
  cbn [scanKeys] in Hscan.
  destruct (existsb (startsWith k) FIBER_PREFIXES) eqn:Hk; [discriminate Hscan|].
  destruct Hin as [<-|Hin]; [exact Hk|apply IH; assumption].
Qed.

Lemma scanKeys_prefixed (keys : list string) (key : string) :
  scanKeys keys = Some key -> existsb (startsWith key) FIBER_PREFIXES = true.
Proof.
  intros H. destruct (scanKeys_some keys key H) as [_ [prefix [Hin Hst]]].
  apply existsb_exists. exists prefix. split; assumption.
Qed.

(** An element without prefixed property names has no property of a
    prefixed name. *)
Lemma getProp_unscanned (x : Element) (key : string) :
  scanKeys (ownKeys x) = None ->
  existsb (startsWith key) FIBER_PREFIXES = true ->
  getProp x key = None.
Proof.
  intros Hscan Hkey. unfold getProp. apply assoc_absent. intros Hin.
  fold (ownKeys x) in Hin.
  rewrite (scanKeys_none_inv (ownKeys x) key Hscan Hin) in Hkey. discriminate Hkey.
Qed.

Lemma resolveFiber_loop_discovers_prefixed (fuel : nat) :
  forall current depth r key,
    resolveFiber_loop fuel current depth None = (r, Some key) ->
    existsb (startsWith key) FIBER_PREFIXES = true.
Proof.
  induction fuel as [|fuel IH]; intros current depth r key H; [discriminate H|].
  cbn [resolveFiber_loop] in H. destruct current as [x|]; [|discriminate H].
  destruct (depth <=? MAX_PARENT_DEPTH); [|discriminate H].
  unfold bind, getFiberFromElement in H.
  destruct (scanKeys (ownKeys x)) as [k|] eqn:Hscan.
  - assert (Hk : key = k).
    { destruct (match getProp x k with Some v => v | None => None end).
      - injection H as _ Hc. symmetry. exact Hc.
      - pose proof (resolveFiber_loop_cached fuel (parentElement x) (S depth) k) as Hc.
        rewrite H in Hc. unfold cacheAfter in Hc. cbn [snd] in Hc.
        injection Hc as Hc. exact Hc. }
    subst key. apply (scanKeys_prefixed _ _ Hscan).
  - apply (IH _ _ _ _ H).
Qed.

Lemma resolveFiber_loop_stable (fuel : nat) :
  forall current depth r c',
    resolveFiber_loop fuel current depth None = (r, c') ->
    resolveFiber_loop fuel current depth c' = (r, c').
Proof.
  induction fuel as [|fuel IH]; intros current depth r c' H.
  - cbn in H. injection H as <- <-. reflexivity.
  - destruct c' as [key|]; [|exact H].
    pose proof (resolveFiber_loop_discovers_prefixed _ _ _ _ _ H) as Hprefixed.
    cbn [resolveFiber_loop] in H |- *.
    destruct current as [x|]; [|discriminate H].
    destruct (depth <=? MAX_PARENT_DEPTH); [|discriminate H].
    unfold bind in H |- *. rewrite getFiberFromElement_cached.
    unfold getFiberFromElement in H.
    destruct (scanKeys (ownKeys x)) as [k|] eqn:Hscan.
    + destruct (getProp x k) as [[g|]|] eqn:Hp.
      * injection H as <- <-. rewrite Hp. reflexivity.
      * pose proof (resolveFiber_loop_cached fuel (parentElement x) (S depth) k) as Hc.
        rewrite H in Hc. unfold cacheAfter in Hc. cbn [snd] in Hc.
        injection Hc as <-. rewrite Hp. exact H.
      * pose proof (resolveFiber_loop_cached fuel (parentElement x) (S depth) k) as Hc.
        rewrite H in Hc. unfold cacheAfter in Hc. cbn [snd] in Hc.
        injection Hc as <-. rewrite Hp. exact H.
    + rewrite (getProp_unscanned x key Hscan Hprefixed).
      apply IH. exact H.
Qed.

(** X6: the cache that a first resolution of an element leaves does not
    change what the same element resolves to: resolving it again under
    that cache gives the same fiber and the same cache. *)
Theorem X6_cache_is_transparent_for_the_element_that_set_it
    (el : Element) (r : option FiberNode) (c' : option string) :
  resolveFiber el None = (r, c') ->
  resolveFiber el c' = (r, c').
Proof.
  unfold resolveFiber. apply resolveFiber_loop_stable.
Qed.

Lemma X6_cache_transparent_witness :
  resolveFiber Demo.bareSpan (Some "__reactFiber$abc")
  = (Some Demo.clickFiber, Some "__reactFiber$abc").
Proof.
  apply (X6_cache_is_transparent_for_the_element_that_set_it Demo.bareSpan).
  reflexivity.
Defined.

(** ** The filter engine and the pipeline, further *)

Section FilterFurther.

Variable matches : Element -> string -> bool.

Lemma findPointerTarget_loop_sound (fuel : nat) :
  forall cur depth ign ev c r,
    result (findPointerTarget_loop matches fuel (Some cur) depth ign ev c) = Some r ->
    exists j, depth + j <= MAX_ANCESTOR_DEPTH
              /\ ancestor j cur = Some r
              /\ forall i x, i <= j -> ancestor i cur = Some x ->
                             isIgnored matches x ign = false
                             /\ isDisabled x = false.
Proof.
  induction fuel as [|fuel IH]; intros cur depth ign ev c r H; [discriminate H|].
  cbn [findPointerTarget_loop] in H.
  destruct (depth <=? MAX_ANCESTOR_DEPTH) eqn:Hd; [|discriminate H].
  apply Nat.leb_le in Hd.
  destruct (isIgnored matches cur ign) eqn:Hign; [discriminate H|].
  destruct (isDisabled cur) eqn:Hdis; [discriminate H|].
  unfold bind in H. destruct (isInteractiveElement cur ev c) as [[|] c'].
  - injection H as <-. exists 0. split; [lia|]. split; [reflexivity|].
    intros i x Hi Hx. assert (i = 0) by lia. subst i.
    injection Hx as <-. split; assumption.
  - destruct (parentElement cur) as [p|] eqn:Hp.
    + destruct (IH p (S depth) ign ev c' r H) as (j & Hle & Hj & Hclean).
      exists (S j). split; [lia|].
      split; [cbn [ancestor]; rewrite Hp; exact Hj|].
      intros [|i] x Hi Hx.
      * injection Hx as <-. split; assumption.
      * cbn [ancestor] in Hx. rewrite Hp in Hx. apply (Hclean i x); [lia|exact Hx].
    + destruct fuel; discriminate H.
Qed.

(** X7: for a Pointer event, the element returned is the target or one
    of its first 10 ancestors, the target is an HTML element, and neither
    the returned element nor any element below it on the way is ignored
    or disabled. *)
Theorem X7_pointer_result_lies_within_ten_enabled_levels
    (target r : Element) (ign : list string) (ev : string) (c : option string) :
  getEventCategory ev = Pointer ->
  result (getTrackableElement matches target ign ev c) = Some r ->
  el_isHTML target = true
  /\ exists j, j <= 10
               /\ ancestor j target = Some r
               /\ forall i x, i <= j -> ancestor i target = Some x ->
                              isIgnored matches x ign = false
                              /\ isDisabled x = false.
Proof.
  intros Hcat H. unfold getTrackableElement in H.
  destruct (el_isHTML target); [|discriminate H]. split; [reflexivity|].
  cbn [negb] in H. rewrite Hcat in H. unfold findPointerTarget in H.
  destruct (findPointerTarget_loop_sound _ _ _ _ _ _ _ H) as (j & Hle & Hrest).
  exists j. split; [exact Hle|exact Hrest].
Qed.

(** X8: for a Form or Ambient event the filter never looks further than
    the target: it returns the target or absent, and it does not touch
    the resolver's cache. *)
Theorem X8_form_and_ambient_filter_only_the_target
    (target : Element) (ign : list string) (ev : string) (c : option string) :
  getEventCategory ev <> Pointer ->
  cacheAfter (getTrackableElement matches target ign ev c) = c
  /\ (result (getTrackableElement matches target ign ev c) = None
      \/ result (getTrackableElement matches target ign ev c) = Some target).
Proof.
  intros Hcat. unfold getTrackableElement.
  destruct (el_isHTML target); cbn [negb]; [|split; [reflexivity|left; reflexivity]].
  destruct (getEventCategory ev); [contradiction Hcat; reflexivity| |].
  - unfold ret, filterFormTarget. split; [reflexivity|].
    destruct (isIgnored matches target ign); [left; reflexivity|].
    destruct (isDisabled target); [left|right]; reflexivity.
  - unfold ret, filterAmbientTarget. split; [reflexivity|].
    destruct (isIgnored matches target ign); [left|right]; reflexivity.
Qed.

(** X9: a Pointer event on an HTML element with an interactive tag is
    decided on the target alone, without a fiber lookup: the target is
    returned unless it is ignored or disabled, and the cache is left as
    it was. *)
Theorem X9_interactive_tag_is_returned_without_fiber_lookup
    (target : Element) (ign : list string) (ev : string) (c : option string) :
  getEventCategory ev = Pointer ->
  el_isHTML target = true ->
  setHas INTERACTIVE_TAGS (tagName target) = true ->
  getTrackableElement matches target ign ev c
  = (if isIgnored matches target ign || isDisabled target then None
     else Some target, c).
Proof.
  intros Hcat Hhtml Htag. unfold getTrackableElement.
  rewrite Hhtml, Hcat. cbn [negb]. unfold findPointerTarget.
  cbn [findPointerTarget_loop Nat.leb].
  destruct (isIgnored matches target ign); [reflexivity|].
  destruct (isDisabled target); [reflexivity|].
  unfold bind, isInteractiveElement. rewrite Htag. reflexivity.
Qed.

(** [invoke] only ever removes entries. *)
Lemma invoke_loop_incl (iter : list RegistryEntry) :
  forall event es log e,
    In e (fst (invoke_loop matches iter event es log)) -> In e es.
Proof.
  induction iter as [|entry rest IH]; intros event es log e H; [exact H|].
  cbn [invoke_loop] in H.
  destruct (negb (String.eqb (entry_eventType entry) (te_type event)));
    [apply (IH _ _ _ _ H)|].
  destruct (negb (selectorAdmits matches entry event)); [apply (IH _ _ _ _ H)|].
  destruct (opt_once (entry_options entry)); [|apply (IH _ _ _ _ H)].
  apply IH in H. unfold unsubscribe in H. apply filter_In in H. exact (proj1 H).
Qed.


(** X11: whatever [handleEvent] does, the call log only grows, and each
    call it adds goes to an entry that was registered for the type of
    this event and carries the record that [getLastEvent] returns
    afterwards, built from this very event; the registry never gains an
    entry. *)
Theorem X11_listeners_receive_the_record_that_is_cached
    (config : ResolvedConfig) (now : nat) (ev : DomEvent) (w : World) :
  let w' := handleEvent matches config now ev w in
  (exists added,
      calls w' = calls w ++ added
      /\ forall uid record, In (uid, record) added ->
           getLastEvent w' = Some record
           /\ te_raw record = ev
           /\ te_timestamp record = now
           /\ exists entry, In entry (entries w)
                            /\ entry_uid entry = uid
                            /\ entry_eventType entry = ev_type ev)
  /\ (forall entry, In entry (entries w') -> In entry (entries w)).
Proof.
  intros w'. subst w'.
  assert (Hkeep : (exists added,
      calls w = calls w ++ added
      /\ forall uid record, In (uid, record) added ->
           getLastEvent w = Some record
           /\ te_raw record = ev
           /\ te_timestamp record = now
           /\ exists entry, In entry (entries w)
                            /\ entry_uid entry = uid
                            /\ entry_eventType entry = ev_type ev)).
  { exists []. rewrite app_nil_r. split; [reflexivity|intros uid record []]. }
  destruct (enabled config) eqn:Hen.
  2:{ unfold handleEvent. rewrite Hen. cbn [negb]. split; [exact Hkeep|auto]. }
  destruct (ev_target ev) as [| |target] eqn:Htarget.
  1,2: unfold handleEvent; rewrite Hen, Htarget; cbn [negb];
       (split; [exact Hkeep|auto]).
  destruct (getTrackableElement matches target (ignoreSelectors config)
              (ev_type ev) (cachedKey w)) as [[el|] c1] eqn:Hsel.
  - rewrite (handleEvent_accepted matches config now ev w target el c1
               Hen Htarget Hsel).
    cbn [calls entries getLastEvent lastEvent]. split.
    + eexists. split; [reflexivity|].
      intros uid record Hin. apply in_map_iff in Hin.
      destruct Hin as [entry [Heq Hfired]]. injection Heq as <- <-.
      apply filter_In in Hfired. destruct Hfired as [Hin Hfires].
      unfold fires in Hfires. apply andb_true_iff in Hfires.
      destruct Hfires as [Htype _]. apply String.eqb_eq in Htype.
      cbn [te_type te_raw te_timestamp] in *.
      repeat split. exists entry. repeat split; assumption.
    + intros entry Hin. unfold invoke in Hin.
      apply (invoke_loop_incl _ _ _ _ _ Hin).
  - unfold handleEvent. rewrite Hen, Htarget, Hsel. cbn [negb calls entries].
    split; [exact Hkeep|auto].
Qed.

End FilterFurther.

Lemma X7_pointer_result_witness :
  el_isHTML (Demo.nest 10 Demo.outsideButton) = true
  /\ exists j, j <= 10
               /\ ancestor j (Demo.nest 10 Demo.outsideButton)
                  = Some Demo.outsideButton
               /\ forall i x, i <= j ->
                    ancestor i (Demo.nest 10 Demo.outsideButton) = Some x ->
                    isIgnored Demo.matches x [] = false /\ isDisabled x = false.
Proof.
  apply (X7_pointer_result_lies_within_ten_enabled_levels Demo.matches
           (Demo.nest 10 Demo.outsideButton) Demo.outsideButton [] "click" None);
    reflexivity.
Defined.

Lemma X8_form_and_ambient_witness :
  cacheAfter (getTrackableElement Demo.matches Demo.fiberDiv [] "scroll" None)
  = None
  /\ (result (getTrackableElement Demo.matches Demo.fiberDiv [] "scroll" None)
      = None
      \/ result (getTrackableElement Demo.matches Demo.fiberDiv [] "scroll" None)
         = Some Demo.fiberDiv).
Proof.
  apply (X8_form_and_ambient_filter_only_the_target Demo.matches Demo.fiberDiv
           [] "scroll" None).
  intros H. discriminate H.
Defined.

Lemma X9_interactive_tag_witness :
  getTrackableElement Demo.matches Demo.bareButton [] "click" None
  = (Some Demo.bareButton, None)
  /\ getTrackableElement Demo.matches Demo.ignoredDisabledButton [] "click" None
     = (None, None).
Proof.
  split.
  - apply (X9_interactive_tag_is_returned_without_fiber_lookup Demo.matches
             Demo.bareButton [] "click" None); reflexivity.
  - apply (X9_interactive_tag_is_returned_without_fiber_lookup Demo.matches
             Demo.ignoredDisabledButton [] "click" None); reflexivity.
Defined.


Lemma X11_listeners_record_witness :
  exists added,
    calls (handleEvent Demo.matches (mkConfig true [] None false) 9
             (Demo.click Demo.outsideButton)
             (Demo.freshWorld [Demo.clickListener]))
    = [] ++ added
    /\ forall uid record, In (uid, record) added ->
         getLastEvent (handleEvent Demo.matches (mkConfig true [] None false) 9
                         (Demo.click Demo.outsideButton)
                         (Demo.freshWorld [Demo.clickListener]))
         = Some record
         /\ te_raw record = Demo.click Demo.outsideButton
         /\ te_timestamp record = 9
         /\ exists entry, In entry [Demo.clickListener]
                          /\ entry_uid entry = uid
                          /\ entry_eventType entry = "click".
Proof.
  exact (proj1 (X11_listeners_receive_the_record_that_is_cached Demo.matches
                  (mkConfig true [] None false) 9
                  (Demo.click Demo.outsideButton)
                  (Demo.freshWorld [Demo.clickListener]))).
Defined.

(** ** The registry *)

Lemma setHas_In (s : list string) (x : string) : setHas s x = true <-> In x s.
Proof.
  unfold setHas. rewrite existsb_exists. split.
  - intros [y [Hin Heq]]. apply String.eqb_eq in Heq. subst y. exact Hin.
  - intros Hin. exists x. split; [exact Hin|apply String.eqb_refl].
Qed.

Lemma newSet_In (xs : list string) :
  forall seen t, In t (newSet xs seen) <-> In t seen \/ In t xs.
Proof.
  induction xs as [|x rest IH]; intros seen t; cbn [newSet].
  - split; [intros H; left; exact H|intros [H|[]]; exact H].
  - rewrite IH. destruct (setHas seen x) eqn:Hx.
    + apply setHas_In in Hx. split.
      * intros [H|H]; [left; exact H|right; right; exact H].
      * intros [H|[<-|H]]; [left; exact H|left; exact Hx|right; exact H].
    + rewrite in_app_iff. cbn [In]. tauto.
Qed.

Lemma newSet_NoDup (xs : list string) :
  forall seen, NoDup seen -> NoDup (newSet xs seen).
Proof.
  induction xs as [|x rest IH]; intros seen Hnd; cbn [newSet]; [exact Hnd|].
  apply IH. destruct (setHas seen x) eqn:Hx; [exact Hnd|].
  apply NoDup_app; [exact Hnd|repeat constructor; intros []|].
  intros y Hy [<-|[]]. apply setHas_In in Hy. rewrite Hy in Hx. discriminate Hx.
Qed.

Lemma filter_twice (A : Type) (f g : A -> bool) (l : list A) :
  filter f (filter g l) = filter (fun x => g x && f x) l.
Proof.
  induction l as [|x rest IH]; [reflexivity|].
  cbn [filter]. destruct (g x); cbn [filter andb]; rewrite IH; reflexivity.
Qed.

Lemma filter_all (A : Type) (f : A -> bool) (l : list A) :
  (forall x, In x l -> f x = true) -> filter f l = l.
Proof.
  induction l as [|x rest IH]; intros H; [reflexivity|].
  cbn [filter]. rewrite (H x (or_introl eq_refl)).
  rewrite IH; [reflexivity|]. intros y Hy. apply H. right. exact Hy.
Qed.

Lemma uid_identifies (es : list RegistryEntry) :
  NoDup (map entry_uid es) ->
  forall e e', In e es -> In e' es -> entry_uid e = entry_uid e' -> e = e'.
Proof.
  induction es as [|x rest IH]; intros Hnd e e' He He' Heq; [destruct He|].
  cbn [map] in Hnd. inversion Hnd as [|u us Hnotin Hnd' Hu]. subst u us.
  destruct He as [<-|He]; destruct He' as [<-|He'].
  - reflexivity.
  - exfalso. apply Hnotin. rewrite Heq. apply in_map. exact He'.
  - exfalso. apply Hnotin. rewrite <- Heq. apply in_map. exact He.
  - apply (IH Hnd' e e' He He' Heq).
Qed.

Section RegistryFurther.

Variable matches : Element -> string -> bool.

(** The entries whose callback [invoke] calls and which asked for
    [once]. *)
Let firedOnce (event : TrackEvent) (e : RegistryEntry) : bool :=
  fires matches event e && opt_once (entry_options e).

Lemma invoke_loop_entries (iter : list RegistryEntry) :
  forall event es log,
    fst (invoke_loop matches iter event es log)
    = filter (fun e => negb (existsb (fun e' => entry_uid e =? entry_uid e')
                               (filter (firedOnce event) iter)))
             es.
Proof.
  induction iter as [|entry rest IH]; intros event es log.
  - cbn. symmetry. apply filter_all. reflexivity.
  - cbn [invoke_loop filter]. unfold firedOnce at 1, fires.
    destruct (String.eqb (entry_eventType entry) (te_type event));
      cbn [negb andb]; [|apply IH].
    destruct (selectorAdmits matches entry event); cbn [negb andb]; [|apply IH].
    destruct (opt_once (entry_options entry)); [|apply IH].
    rewrite IH. unfold unsubscribe. rewrite filter_twice.
    apply filter_ext. intros e. cbn [existsb]. rewrite negb_orb. reflexivity.
Qed.

(** X12: when the entries of the registry are distinct objects, [invoke]
    leaves exactly the entries that were not both called and registered
    with [once], in their order; so a [once] listener is never called a
    second time. *)
Theorem X12_invoke_drops_exactly_the_once_listeners_it_called
    (event : TrackEvent) (es : list RegistryEntry) (log : list (nat * TrackEvent)) :
  NoDup (map entry_uid es) ->
  fst (invoke matches event es log)
  = filter (fun e => negb (fires matches event e && opt_once (entry_options e))) es
  /\ forall later log' uid,
       In (uid, later)
          (snd (invoke matches later (fst (invoke matches event es log)) log')) ->
       In (uid, later) log'
       \/ exists e, In e es /\ entry_uid e = uid
                    /\ (fires matches event e && opt_once (entry_options e)) = false.
Proof.
  intros Hnd.
  assert (Hleft : fst (invoke matches event es log)
                  = filter (fun e => negb (firedOnce event e)) es).
  { unfold invoke. rewrite invoke_loop_entries. apply filter_ext_in.
    intros e He. f_equal. destruct (firedOnce event e) eqn:Hf.
    - apply existsb_exists. exists e. split; [|apply Nat.eqb_refl].
      apply filter_In. split; assumption.
    - apply not_true_is_false. intros Hex. apply existsb_exists in Hex.
      destruct Hex as [e' [Hin Heq]]. apply filter_In in Hin.
      destruct Hin as [He' Hf']. apply Nat.eqb_eq in Heq.
      rewrite (uid_identifies es Hnd e e' He He' Heq) in Hf.
      rewrite Hf in Hf'. discriminate Hf'. }
  split; [exact Hleft|].
  intros later log' uid Hin. unfold invoke in Hin at 1.
  rewrite invoke_loop_calls in Hin. apply in_app_iff in Hin.
  destruct Hin as [Hin|Hin]; [left; exact Hin|right].
  apply in_map_iff in Hin. destruct Hin as [e [Heq Hfired]].
  injection Heq as <-. apply filter_In in Hfired. destruct Hfired as [He _].
  rewrite Hleft in He. apply filter_In in He. destruct He as [He Hnot].
  exists e. split; [exact He|]. split; [reflexivity|].
  apply negb_true_iff in Hnot. exact Hnot.
Qed.

End RegistryFurther.

(** X13: subscribing and unsubscribing undo each other: removing the
    entry that [add] has just appended, when its identity is new to the
    registry, gives the registry back; and unsubscribing twice is the
    same as once. *)
Theorem X13_unsubscribe_undoes_add
    (uid : nat) (eventType : string) (options : ListenerOptions)
    (es : list RegistryEntry) :
  ~ In uid (map entry_uid es) ->
  unsubscribe (mkEntry uid eventType options) (add uid eventType options es) = es
  /\ (forall entry,
        unsubscribe entry (unsubscribe entry (add uid eventType options es))
        = unsubscribe entry (add uid eventType options es)).
Proof.
  intros Hfresh. split.
  - unfold unsubscribe, add. rewrite filter_app. cbn [filter entry_uid].
    rewrite Nat.eqb_refl. cbn [negb]. rewrite app_nil_r.
    apply filter_all. intros e He. cbn [entry_uid].
    apply negb_true_iff. apply Nat.eqb_neq. intros Heq.
    apply Hfresh. rewrite <- Heq. apply in_map. exact He.
  - intros entry. unfold unsubscribe. rewrite filter_twice.
    apply filter_ext. intros e. apply andb_diag.
Qed.

(** X14: [getEventTypes] lists each event type that has an entry, once,
    and nothing else; after [clear] it is empty. *)
Theorem X14_event_types_are_those_of_the_entries
    (es : list RegistryEntry) (eventType : string) :
  (In eventType (getEventTypes es) <->
   exists entry, In entry es /\ entry_eventType entry = eventType)
  /\ NoDup (getEventTypes es)
  /\ getEventTypes (clear es) = [].
Proof.
  unfold getEventTypes. split; [|split; [|reflexivity]].
  - rewrite newSet_In. rewrite in_map_iff. split.
    + intros [[]|[entry [Ht Hin]]]. exists entry. split; assumption.
    + intros [entry [Hin Ht]]. right. exists entry. split; assumption.
  - apply newSet_NoDup. constructor.
Qed.

Lemma X12_invoke_once_witness :
  fst (invoke Demo.matches Demo2.clickRecord
         [Demo.clickListener; Demo2.onceListener; Demo2.inputListener] [])
  = [Demo.clickListener; Demo2.inputListener]
  /\ forall later log' uid,
       In (uid, later)
          (snd (invoke Demo.matches later
                  (fst (invoke Demo.matches Demo2.clickRecord
                          [Demo.clickListener; Demo2.onceListener;
                           Demo2.inputListener] []))
                  log')) ->
       In (uid, later) log'
       \/ exists e,
            In e [Demo.clickListener; Demo2.onceListener; Demo2.inputListener]
            /\ entry_uid e = uid
            /\ (fires Demo.matches Demo2.clickRecord e
                && opt_once (entry_options e)) = false.
Proof.
  apply (X12_invoke_drops_exactly_the_once_listeners_it_called Demo.matches
           Demo2.clickRecord
           [Demo.clickListener; Demo2.onceListener; Demo2.inputListener] []).
  cbn. repeat constructor; cbn; intros H;
    repeat (destruct H as [H|H]; [discriminate H|]); exact H.
Defined.

Lemma X13_unsubscribe_witness :
  unsubscribe (mkEntry 8 "click" Demo2.plain)
    (add 8 "click" Demo2.plain [Demo.clickListener])
  = [Demo.clickListener]
  /\ (forall entry,
        unsubscribe entry
          (unsubscribe entry (add 8 "click" Demo2.plain [Demo.clickListener]))
        = unsubscribe entry (add 8 "click" Demo2.plain [Demo.clickListener])).
Proof.
  apply (X13_unsubscribe_undoes_add 8 "click" Demo2.plain [Demo.clickListener]).
  cbn. intros [H|H]; [discriminate H|exact H].
Defined.

(** ** The tracker *)

Lemma getEventTypes_In (es : list RegistryEntry) (t : string) :
  In t (getEventTypes es) <-> exists e, In e es /\ entry_eventType e = t.
Proof.
  unfold getEventTypes. rewrite newSet_In, in_map_iff. split.
  - intros [[]|[e [Ht Hin]]]. exists e. split; assumption.
  - intros [e [Hin Ht]]. right. exists e. split; assumption.
Qed.

Lemma ensureDomListener_In (t x : string) (dl : list string) :
  In x (ensureDomListener t dl) <-> In x dl \/ x = t.
Proof.
  unfold ensureDomListener. destruct (setHas dl t) eqn:Ht.
  - apply setHas_In in Ht. split; [intros H; left; exact H|].
    intros [H| ->]; assumption.
  - rewrite in_app_iff. cbn [In]. split.
    + intros [H|[<-|[]]]; [left; exact H|right; reflexivity].
    + intros [H| ->]; [left; exact H|right; left; reflexivity].
Qed.

Lemma ensureDomListener_NoDup (t : string) (dl : list string) :
  NoDup dl -> NoDup (ensureDomListener t dl).
Proof.
  intros Hnd. unfold ensureDomListener. destruct (setHas dl t) eqn:Ht; [exact Hnd|].
  apply NoDup_app; [exact Hnd|repeat constructor; intros []|].
  intros y Hy [<-|[]]. apply setHas_In in Hy. rewrite Hy in Ht. discriminate Ht.
Qed.

Lemma removeDomListener_NoDup (t : string) (es : list RegistryEntry)
    (dl : list string) :
  NoDup dl -> NoDup (removeDomListener t es dl).
Proof.
  intros Hnd. unfold removeDomListener.
  destruct (negb (setHas dl t)); [exact Hnd|].
  destruct (negb (setHas (getEventTypes es) t)); [|exact Hnd].
  apply NoDup_filter. exact Hnd.
Qed.

(** The listener of [t] survives [removeDomListener] exactly when it was
    there and an entry of type [t] is left; the other listeners stay. *)
Lemma removeDomListener_In (t x : string) (es : list RegistryEntry)
    (dl : list string) :
  In x (removeDomListener t es dl)
  <-> In x dl /\ (x = t -> exists e, In e es /\ entry_eventType e = t).
Proof.
  unfold removeDomListener. destruct (setHas dl t) eqn:Ht; cbn [negb].
  - destruct (setHas (getEventTypes es) t) eqn:Hty; cbn [negb].
    + apply setHas_In, getEventTypes_In in Hty. split; [intros H; split; auto|].
      intros [H _]. exact H.
    + rewrite filter_In. split.
      * intros [Hin Hne]. split; [exact Hin|]. intros ->.
        rewrite String.eqb_refl in Hne. discriminate Hne.
      * intros [Hin Himp]. split; [exact Hin|].
        apply negb_true_iff. apply String.eqb_neq. intros ->.
        pose proof (Himp eq_refl) as Hex.
        apply getEventTypes_In, setHas_In in Hex.
        rewrite Hex in Hty. discriminate Hty.
  - split; [|intros [H _]; exact H]. intros H. split; [exact H|].
    intros ->. apply setHas_In in H. rewrite H in Ht. discriminate Ht.
Qed.

Section TrackerFurther.

Variable matches : Element -> string -> bool.

Lemma handleEvent_entries_incl (config : ResolvedConfig) (now : nat)
    (ev : DomEvent) (w : World) (e : RegistryEntry) :
  In e (entries (handleEvent matches config now ev w)) -> In e (entries w).
Proof.
  unfold handleEvent. destruct (negb (enabled config)); [auto|].
  destruct (ev_target ev) as [| |target]; [auto|auto|].
  destruct (getTrackableElement matches target (ignoreSelectors config)
              (ev_type ev) (cachedKey w)) as [[el|] c1]; [|auto].
  destruct (resolveFiber el c1) as [raw c2]. unfold invoke.
  pose proof (invoke_loop_incl matches (entries w)
                (mkTrackEvent (ev_type ev) now (extractElementInfo el)
                   (extractFiberInfo raw) ev raw) (entries w) (calls w) e) as Hincl.
  destruct (invoke_loop matches (entries w) _ (entries w) (calls w)) as [es cs].
  exact Hincl.
Qed.

(** What every operation keeps. *)
Let keeps (tr : Tracker) : Prop :=
  listenersCoverRegistry tr
  /\ NoDup (domListeners tr)
  /\ (destroyed tr = true ->
      entries (pipeline tr) = [] /\ domListeners tr = []).

Lemma stepTracker_keeps (tr : Tracker) (op : TrackerOp) :
  keeps tr -> keeps (stepTracker matches tr op).
Proof.
  intros (Hcover & Hnd & Hdead). unfold listenersCoverRegistry in Hcover.
  destruct op as [uid t o|uid t|now ev|]; cbn [stepTracker].
  - unfold on. destruct (destroyed tr) eqn:Hd; [split; [exact Hcover|split; [exact Hnd|intros Hx; first [exact (Hdead Hx)|exact (Hdead eq_refl)]]]|].
    split; [|split]; cbn [domListeners pipeline destroyed].
    + intros e He. cbn [pipeline withEntries entries domListeners] in *.
      unfold add in He.
      apply in_app_iff in He. apply ensureDomListener_In.
      destruct He as [He|[<-|[]]]; [left; apply Hcover; exact He|right; reflexivity].
    + apply ensureDomListener_NoDup. exact Hnd.
    + intros H. discriminate H.
  - unfold off. split; [|split]; cbn [domListeners pipeline destroyed].
    + intros e He. cbn [pipeline withEntries entries domListeners] in *.
      apply removeDomListener_In. split.
      * apply Hcover. unfold unsubscribe in He. apply filter_In in He. exact (proj1 He).
      * intros Ht. exists e. split; [exact He|exact Ht].
    + apply removeDomListener_NoDup. exact Hnd.
    + intros Hd. destruct (Hdead Hd) as [Hes Hdl]. cbn [withEntries entries].
      rewrite Hes, Hdl. split; reflexivity.
  - unfold deliver. destruct (setHas (domListeners tr) (ev_type ev)) eqn:Hl;
      [|split; [exact Hcover|split; [exact Hnd|intros Hx; first [exact (Hdead Hx)|exact (Hdead eq_refl)]]]].
    unfold domHandler. split; [|split]; cbn [domListeners pipeline destroyed].
    + intros e He. cbn [pipeline domListeners] in *.
      apply Hcover. apply (handleEvent_entries_incl _ _ _ _ _ He).
    + exact Hnd.
    + intros Hd. destruct (Hdead Hd) as [_ Hdl]. rewrite Hdl in Hl. discriminate Hl.
  - unfold destroy. destruct (destroyed tr) eqn:Hd; [split; [exact Hcover|split; [exact Hnd|intros Hx; first [exact (Hdead Hx)|exact (Hdead eq_refl)]]]|].
    split; [|split]; cbn [domListeners pipeline destroyed withEntries entries clear].
    + intros e He. cbn in He. destruct He.
    + constructor.
    + intros _. split; reflexivity.
Qed.

Lemma runTracker_keeps (ops : list TrackerOp) :
  forall tr, keeps tr -> keeps (runTracker matches ops tr).
Proof.
  induction ops as [|op rest IH]; intros tr H; [exact H|].
  cbn [runTracker fold_left]. apply IH. apply stepTracker_keeps. exact H.
Qed.

Lemma createTracker_keeps (cached : option string) (config : option TrackerConfig) :
  keeps (createTracker cached config).
Proof.
  split; [|split]; cbn.
  - intros entry He. destruct He.
  - constructor.
  - intros H. discriminate H.
Qed.

(** X15: whatever sequence of subscriptions, unsubscriptions, deliveries
    and destructions a tracker goes through, every registered entry has a
    document listener attached for its event type, no event type has two,
    and a destroyed tracker has neither entries nor listeners. *)
Theorem X15_every_subscription_keeps_its_document_listener
    (ops : list TrackerOp) (cached : option string)
    (config : option TrackerConfig) :
  let tr := runTracker matches ops (createTracker cached config) in
  listenersCoverRegistry tr
  /\ NoDup (domListeners tr)
  /\ (destroyed tr = true ->
      entries (pipeline tr) = [] /\ domListeners tr = []).
Proof.
  apply (runTracker_keeps ops). apply createTracker_keeps.
Qed.

Lemma dead_tracker_ignores (tr : Tracker) (op : TrackerOp) :
  destroyed tr = true -> entries (pipeline tr) = [] -> domListeners tr = [] ->
  stepTracker matches tr op = tr.
Proof.
  intros Hd Hes Hdl. destruct tr as [cfg d dl w log]. destruct w as [c es last cs].
  cbn in Hd, Hes, Hdl. subst d es dl.
  destruct op; reflexivity.
Qed.

(** X16: [destroy] is final: whatever is asked of a tracker after it,
    subscriptions, unsubscriptions, events or another [destroy], leaves
    the tracker exactly as [destroy] left it, so no listener is
    registered and no callback is called any more. *)
Theorem X16_destroy_is_final
    (before after : list TrackerOp) (cached : option string)
    (config : option TrackerConfig) :
  runTracker matches (before ++ OpDestroy :: after) (createTracker cached config)
  = runTracker matches (before ++ [OpDestroy]) (createTracker cached config).
Proof.
  unfold runTracker. rewrite !fold_left_app. cbn [fold_left].
  pose proof (runTracker_keeps (before ++ [OpDestroy]) _
                (createTracker_keeps cached config)) as (_ & _ & Hdead).
  unfold runTracker in Hdead. rewrite fold_left_app in Hdead. cbn [fold_left] in Hdead.
  set (tr := stepTracker matches
               (fold_left (stepTracker matches) before (createTracker cached config))
               OpDestroy) in *.
  assert (Hd : destroyed tr = true).
  { subst tr. cbn [stepTracker]. unfold destroy.
    destruct (destroyed (fold_left _ before _)) eqn:H; [exact H|reflexivity]. }
  destruct (Hdead Hd) as [Hes Hdl]. clearbody tr.
  induction after as [|op rest IH]; [reflexivity|].
  cbn [fold_left]. rewrite (dead_tracker_ignores tr op Hd Hes Hdl). exact IH.
Qed.

End TrackerFurther.

(** X17: the function returned by [on] detaches the document listener of
    its event type exactly when no other entry of that type is left, and
    never touches the listeners of other event types. *)
Theorem X17_unsubscribing_detaches_only_the_last_listener
    (uid : nat) (eventType other : string) (tr : Tracker) :
  (In eventType (domListeners (off uid eventType tr)) <->
   In eventType (domListeners tr)
   /\ exists entry, In entry (entries (pipeline tr))
                    /\ entry_uid entry <> uid
                    /\ entry_eventType entry = eventType)
  /\ (other <> eventType ->
      (In other (domListeners (off uid eventType tr)) <->
       In other (domListeners tr))).
Proof.
  unfold off. cbn [domListeners]. split.
  - rewrite removeDomListener_In. split.
    + intros [Hin Hex]. split; [exact Hin|].
      destruct (Hex eq_refl) as [e [He Ht]]. unfold unsubscribe in He.
      apply filter_In in He. destruct He as [He Hne]. cbn [entry_uid] in Hne.
      apply negb_true_iff, Nat.eqb_neq in Hne.
      exists e. repeat split; assumption.
    + intros [Hin [e (He & Hne & Ht)]]. split; [exact Hin|]. intros _.
      exists e. split; [|exact Ht]. unfold unsubscribe. apply filter_In.
      split; [exact He|]. cbn [entry_uid]. apply negb_true_iff, Nat.eqb_neq. exact Hne.
  - intros Hother. rewrite removeDomListener_In. split; [intros [H _]; exact H|].
    intros H. split; [exact H|]. intros Heq. contradiction.
Qed.

(** ** Debounce and throttle *)

Section TimersFurther.

Variable Args : Type.
Variable ms : Z.

(** The trace that makes the calls of [burst], each a time and the
    arguments. *)
Let callsOf (burst : list (Z * Args)) : list (TimerOp Args) :=
  map (fun p => Call (fst p) (snd p)) burst.



Lemma debounce_idle_ticks (ticks : list Z) :
  forall out,
    fold_left (stepDebounce ms) (map (@Tick Args) ticks) (None, out) = (None, out).
Proof.
  induction ticks as [|t rest IH]; intros out; [reflexivity|].
  cbn [map fold_left stepDebounce fst snd debounceTimer]. rewrite app_nil_r.
  apply IH.
Qed.

(** X19: after [cancel], the passing of time alone never calls [fn]:
    whatever happened before, a pending call is dropped. *)
Theorem X19_debounce_cancel_drops_the_pending_call
    (st : Debounced Args) (ops : list (TimerOp Args)) (ticks : list Z) :
  runDebounce ms (ops ++ Cancel Args :: map (@Tick Args) ticks) st
  = (None, snd (runDebounce ms ops st)).
Proof.
  unfold runDebounce. rewrite fold_left_app.
  destruct (fold_left (stepDebounce ms) ops (st, [])) as [st' out].
  cbn [fold_left stepDebounce fst snd debounceCancel]. apply debounce_idle_ticks.
Qed.

(** A throttled function has a live timer exactly when it holds
    arguments for the trailing call. *)
Let paired (st : Throttled Args) : Prop :=
  timeoutId st = None <-> lastArgs st = None.

Lemma stepThrottle_paired (acc : Throttled Args * list Args) (op : TimerOp Args) :
  paired (fst acc) -> paired (fst (stepThrottle ms acc op)).
Proof.
  destruct acc as [st out]. unfold paired. cbn [fst]. intros H.
  destruct op as [now args|now|]; cbn [stepThrottle fst].
  - unfold throttled. destruct (ms <=? now - lastCallTime st)%Z; cbn; [exact H|].
    destruct (timeoutId st); split; intros Hx; discriminate Hx.
  - unfold throttleTimer. destruct (timeoutId st) as [due|] eqn:Ht.
    + destruct (due <=? now)%Z; cbn; [tauto|]. rewrite Ht. exact H.
    + cbn. rewrite Ht. exact H.
  - cbn. tauto.
Qed.

(** X20: whatever a throttled function has gone through since it was
    created, its timer is live exactly when arguments are held for the
    trailing call; so the timer, when it runs, always makes exactly one
    call of [fn]. *)
Theorem X20_throttle_timer_always_has_a_call_to_make
    (ops : list (TimerOp Args)) :
  let st := fst (runThrottle ms ops (throttleInit Args)) in
  (timeoutId st = None <-> lastArgs st = None)
  /\ forall due now,
       timeoutId st = Some due -> (due <= now)%Z ->
       exists args, snd (throttleTimer now st) = [args].
Proof.
  intros st.
  assert (Hpaired : paired st).
  { subst st. unfold runThrottle.
    assert (Hgen : forall acc, paired (fst acc) ->
                     paired (fst (fold_left (stepThrottle ms) ops acc))).
    { induction ops as [|op rest IH]; intros acc Hacc; [exact Hacc|].
      cbn [fold_left]. apply IH. apply stepThrottle_paired. exact Hacc. }
    apply Hgen. cbn. unfold paired. cbn. tauto. }
  split; [exact Hpaired|].
  intros due now Hdue Hle. unfold throttleTimer. rewrite Hdue.
  apply Z.leb_le in Hle. rewrite Hle. cbn [snd].
  destruct (lastArgs st) as [args|] eqn:Hargs; [exists args; reflexivity|].
  apply Hpaired in Hargs. rewrite Hargs in Hdue. discriminate Hdue.
Qed.

Lemma throttle_suppressed_burst (t0 : Z) (burst : list (Z * Args)) :
  Forall (fun p => (fst p < t0 + ms)%Z) burst ->
  forall st out,
    lastCallTime st = t0 ->
    (timeoutId st = None \/ timeoutId st = Some (t0 + ms)%Z) ->
    exists st',
      fold_left (stepThrottle ms) (callsOf burst) (st, out) = (st', out)
      /\ lastCallTime st' = t0
      /\ (timeoutId st' = None \/ timeoutId st' = Some (t0 + ms)%Z).
Proof.
  induction burst as [|[t a] rest IH]; intros Hall st out Ht0 Htimer.
  - exists st. repeat split; assumption.
  - inversion Hall as [|p ps Hp Hrest]. subst p ps. cbn [fst] in Hp.
    cbn [callsOf map fold_left stepThrottle fst snd]. unfold throttled.
    rewrite Ht0. assert (Hlt : (ms <=? t - t0)%Z = false) by (apply Z.leb_gt; lia).
    rewrite Hlt. cbv beta iota. rewrite app_nil_r.
    apply (IH Hrest); [reflexivity|]. cbn [timeoutId]. right.
    destruct Htimer as [-> | ->]; [|reflexivity].
    unfold dueTime. f_equal. lia.
Qed.

(** X21: a call made at least [ms] after the last one calls [fn] at
    once; the calls that follow within [ms] of it call nothing; and when
    the timer runs, [ms] after the first call or later, [fn] is called
    once more, with the arguments of the last of them. *)
Theorem X21_throttle_leads_at_once_and_trails_with_the_last_call
    (st : Throttled Args) (t0 : Z) (a0 : Args) (burst : list (Z * Args))
    (tl : Z) (al : Args) (t : Z) :
  timeoutId st = None ->
  (ms <= t0 - lastCallTime st)%Z ->
  Forall (fun p => (fst p < t0 + ms)%Z) burst ->
  (tl < t0 + ms)%Z ->
  (t0 + ms <= t)%Z ->
  snd (runThrottle ms [Call t0 a0] st) = [a0]
  /\ snd (runThrottle ms (Call t0 a0 :: callsOf burst ++ [Call tl al]) st) = [a0]
  /\ runThrottle ms (Call t0 a0 :: callsOf burst ++ [Call tl al; Tick Args t]) st
     = (mkThrottled t None None, [a0; al]).
Proof.
  intros Hidle Hlead Hburst Hlast Hdue.
  assert (Hle : (ms <=? t0 - lastCallTime st)%Z = true) by (apply Z.leb_le; exact Hlead).
  assert (Hlt : (ms <=? tl - t0)%Z = false) by (apply Z.leb_gt; lia).
  assert (Hfire : (t0 + ms <=? t)%Z = true) by (apply Z.leb_le; exact Hdue).
  unfold runThrottle. cbn [fold_left stepThrottle fst snd]. unfold throttled at 1 2 3.
  rewrite Hle. cbn [app snd]. split; [reflexivity|].
  rewrite !fold_left_app.
  destruct (throttle_suppressed_burst t0 burst Hburst
              (mkThrottled t0 (timeoutId st) (lastArgs st)) [a0] eq_refl)
    as (st' & Hrun & Ht0 & Htimer); [left; exact Hidle|].
  rewrite Hrun. cbn [fold_left stepThrottle fst snd]. unfold throttled.
  rewrite Ht0, Hlt. cbn [app snd fst].
  split; [reflexivity|].
  unfold throttleTimer. cbn [timeoutId lastArgs].
  assert (Hset : match timeoutId st' with
                 | Some due => Some due
                 | None => Some (dueTime tl (ms - (tl - t0)))
                 end = Some (t0 + ms)%Z).
  { destruct Htimer as [-> | ->]; [|reflexivity]. unfold dueTime. f_equal. lia. }
  rewrite Hset, Hfire. reflexivity.
Qed.

End TimersFurther.

Lemma X20_throttle_timer_witness :
  exists args,
    snd (throttleTimer 1100
           (fst (runThrottle 100 [Call 1000 "first"; Call 1010 "second"]
                   (throttleInit string))))
    = [args].
Proof.
  apply (proj2 (X20_throttle_timer_always_has_a_call_to_make string 100
                  [Call 1000 "first"; Call 1010 "second"]) 1100%Z 1100%Z).
  - reflexivity.
  - lia.
Defined.

Lemma X21_throttle_witness :
  snd (runThrottle 100 [Call 1000 "first"] (throttleInit string)) = ["first"]
  /\ snd (runThrottle 100
            (Call 1000 "first"
               :: map (fun p => Call (fst p) (snd p)) [(1010%Z, "second")]
               ++ [Call 1020 "third"])
            (throttleInit string)) = ["first"]
  /\ runThrottle 100
       (Call 1000 "first"
          :: map (fun p => Call (fst p) (snd p)) [(1010%Z, "second")]
          ++ [Call 1020 "third"; Tick string 1100])
       (throttleInit string)
     = (mkThrottled 1100 None None, ["first"; "third"]).
Proof.
  apply (X21_throttle_leads_at_once_and_trails_with_the_last_call string 100
           (throttleInit string) 1000 "first" [(1010%Z, "second")]
           1020 "third" 1100).
  - reflexivity.
  - cbn. lia.
  - repeat constructor.
  - lia.
  - lia.
Defined.

Lemma X14_event_types_witness :
  In "input"
     (getEventTypes [Demo.clickListener; Demo2.onceListener; Demo2.inputListener])
  /\ NoDup
       (getEventTypes [Demo.clickListener; Demo2.onceListener; Demo2.inputListener]).
Proof.
  destruct (X14_event_types_are_those_of_the_entries
              [Demo.clickListener; Demo2.onceListener; Demo2.inputListener] "input")
    as (Hin & Hnd & _).
  split; [|exact Hnd].
  apply Hin. exists Demo2.inputListener. split; [|reflexivity].
  right. right. left. reflexivity.
Defined.

Lemma X15_document_listener_witness :
  entries (pipeline
             (runTracker Demo.matches
                [OpOn 7 "click" Demo2.plain; OpOn 9 "input" Demo2.plain;
                 OpOff 7 "click"; OpDestroy]
                (createTracker None None))) = []
  /\ domListeners
       (runTracker Demo.matches
          [OpOn 7 "click" Demo2.plain; OpOn 9 "input" Demo2.plain;
           OpOff 7 "click"; OpDestroy]
          (createTracker None None)) = [].
Proof.
  apply (proj2 (proj2 (X15_every_subscription_keeps_its_document_listener
                         Demo.matches
                         [OpOn 7 "click" Demo2.plain; OpOn 9 "input" Demo2.plain;
                          OpOff 7 "click"; OpDestroy]
                         None None))).
  reflexivity.
Defined.

Lemma X17_unsubscribing_witness :
  In "click"
     (domListeners
        (off 7 "click"
           (on 8 "click" Demo2.plain
              (on 7 "click" Demo2.plain (createTracker None None)))))
  /\ In "input"
       (domListeners
          (off 7 "click"
             (on 9 "input" Demo2.plain
                (on 7 "click" Demo2.plain (createTracker None None))))).
Proof.
  split.
  - apply (proj1 (X17_unsubscribing_detaches_only_the_last_listener 7 "click"
                    "input"
                    (on 8 "click" Demo2.plain
                       (on 7 "click" Demo2.plain (createTracker None None))))).
    split; [left; reflexivity|].
    exists (mkEntry 8 "click" Demo2.plain). split; [right; left; reflexivity|].
    split; [intros H; discriminate H|reflexivity].
  - apply (proj2 (X17_unsubscribing_detaches_only_the_last_listener 7 "click"
                    "input"
                    (on 9 "input" Demo2.plain
                       (on 7 "click" Demo2.plain (createTracker None None))))).
    + intros H. discriminate H.
    + right. left. reflexivity.
Defined.
